(** * pixelmatch-dirs: a shallow embedding of [pixelmatch-dirs.go]

    The program walks a source directory, stages every PNG that has a
    same-named file in the target directory into a scratch directory, runs
    the pixelmatch container on the staged pair, classifies the exit status
    and prints a report.

    Organisation of the development:
    - the Go library functions the program calls on strings and paths
      ([strings.Split], [strings.TrimSpace], [strings.HasSuffix],
      [filepath.Join]) are executable functions on byte strings;
    - the operating system and the rest of the Go runtime (file system,
      [docker], the current directory, [strconv.ParseFloat], the tab
      writer) are an interface [Platform] over an abstract world; every
      call the program makes is recorded, with its answer, in the list of
      events of the run, and what it prints in the list of chunks written
      to standard output;
    - [log.Fatalf] and run-time panics are results of the run, next to
      normal termination;
    - [RefOS] is one implementation of the interface, a finite map from
      paths to files and directories, on which the program is evaluated;
    - the statements are proved for every platform, and instantiated on
      [RefOS]. [flag.Parse] is outside the embedding: [main] takes the
      positional arguments it leaves. *)

From Stdlib Require Import ZArith Ascii String.
From stdpp Require Import base option list strings gmap.

Local Open Scope Z_scope.

(** ** Go strings: the library functions the program uses *)

Module GoStrings.

(** Line feed and colon, the two separators [newDiffPixel] splits on. *)
Definition LF : ascii := "010"%char.
Definition COLON : ascii := ":"%char.

(** A one-byte string. *)
Definition char (c : ascii) : string := String c EmptyString.

(** [strings.Split(s, sep)] for a one-byte separator: the fields between
    the occurrences of [sep]; a string without [sep] gives the one-element
    list of itself, the empty string included. *)
Fixpoint Split (s : string) (sep : ascii) : list string :=
  match s with
  | EmptyString => [EmptyString]
  | String c rest =>
      if Ascii.eqb c sep then EmptyString :: Split rest sep
      else match Split rest sep with
           | field :: fields => String c field :: fields
           | [] => [String c EmptyString]
           end
  end.

(** [strings.HasSuffix(s, suffix)]:
    [len(s) >= len(suffix) && s[len(s)-len(suffix):] == suffix]. *)
Definition HasSuffix (s suffix : string) : bool :=
  let n := String.length s in
  let k := String.length suffix in
  (k <=? n)%nat && String.eqb (String.substring (n - k) k s) suffix.

(** [strings.HasPrefix]. *)
Definition HasPrefix (s pre : string) : bool := String.prefix pre s.

Definition bytes (l : list nat) : string :=
  string_of_list_ascii (map ascii_of_nat l).

(** UTF-8 encodings of the runes for which [unicode.IsSpace] holds:
    U+0009..U+000D, U+0020, U+0085, U+00A0, U+1680, U+2000..U+200A,
    U+2028, U+2029, U+202F, U+205F, U+3000. *)
Definition space_runes : list string :=
  map bytes
    [ [9%nat]; [10%nat]; [11%nat]; [12%nat]; [13%nat]; [32%nat];
      [194; 133]%nat; [194; 160]%nat; [225; 154; 128]%nat;
      [226; 128; 128]%nat; [226; 128; 129]%nat; [226; 128; 130]%nat;
      [226; 128; 131]%nat; [226; 128; 132]%nat; [226; 128; 133]%nat;
      [226; 128; 134]%nat; [226; 128; 135]%nat; [226; 128; 136]%nat;
      [226; 128; 137]%nat; [226; 128; 138]%nat; [226; 128; 168]%nat;
      [226; 128; 169]%nat; [226; 128; 175]%nat; [226; 129; 159]%nat;
      [227; 128; 128]%nat ].

Definition drop_bytes (n : nat) (s : string) : string :=
  String.substring n (String.length s - n) s.

(** Strip leading occurrences of the given byte sequences; every round
    removes at least one byte, so [String.length s] rounds are enough. *)
Fixpoint strip_leading (runes : list string) (fuel : nat) (s : string)
  : string :=
  match fuel with
  | O => s
  | S fuel' =>
      match List.find (fun r => String.prefix r s) runes with
      | Some r => strip_leading runes fuel' (drop_bytes (String.length r) s)
      | None => s
      end
  end.

Definition TrimLeftSpace (s : string) : string :=
  strip_leading space_runes (String.length s) s.

Definition TrimRightSpace (s : string) : string :=
  String.rev
    (strip_leading (map String.rev space_runes) (String.length s)
       (String.rev s)).

(** [strings.TrimSpace(s)]: [s] without leading and trailing white
    space, as defined by Unicode. *)
Definition TrimSpace (s : string) : string :=
  TrimRightSpace (TrimLeftSpace s).

(** Whether the byte [c] occurs in [s]. *)
Fixpoint contains (c : ascii) (s : string) : bool :=
  match s with
  | EmptyString => false
  | String c' rest => Ascii.eqb c' c || contains c rest
  end.

(** The byte after a field, if any, is the separator. *)
Definition ends_field (c : ascii) (rest : string) : bool :=
  match rest with
  | EmptyString => true
  | String c' _ => Ascii.eqb c' c
  end.

End GoStrings.

(** ** The pixel-mismatch record and its parser *)

Record diffPixel := mkDiffPixel {
  file : string;
  pixels : string;
  error : string
}.

(** [newDiffPixel]: [None] is the run-time panic of an index out of range
    ([lines[1]], [lines[2]], [pixels[1]], [errorPer[1]]). *)
Definition newDiffPixel (fileName pixelmatchOut : string) : option diffPixel :=
  let lines := GoStrings.Split pixelmatchOut GoStrings.LF in
  line1 ← lines !! 1%nat;
  let pixels := GoStrings.Split line1 GoStrings.COLON in
  line2 ← lines !! 2%nat;
  let errorPer := GoStrings.Split line2 GoStrings.COLON in
  pixels1 ← pixels !! 1%nat;
  errorPer1 ← errorPer !! 1%nat;
  Some {| file := fileName;
          pixels := GoStrings.TrimSpace pixels1;
          error := GoStrings.TrimSpace errorPer1 |}.

Definition nl : string := GoStrings.char GoStrings.LF.

Definition sample_out : string :=
  "header" +:+ nl +:+ "pixels: 1234" +:+ nl +:+ "error: 0.042" +:+ nl.

(** ** Paths *)

Module filepath.
Import GoStrings.

Definition slash : ascii := "/"%char.

(** One element of the path being cleaned; the stack holds the elements
    kept so far, the last one first. *)
Definition clean_step (rooted : bool) (stack : list string) (elem : string)
  : list string :=
  if String.eqb elem EmptyString || String.eqb elem "." then stack
  else if String.eqb elem ".." then
    match stack with
    | top :: below =>
        if String.eqb top ".." then elem :: stack else below
    | [] => if rooted then [] else [elem]
    end
  else elem :: stack.

(** [filepath.Clean]: one separator between elements, no [.] element, no
    inner [..] element, no [..] right after the root; the empty result is
    written [.]. *)
Definition Clean (path : string) : string :=
  if String.eqb path EmptyString then "."
  else
    let rooted := HasPrefix path "/" in
    let kept := rev (fold_left (clean_step rooted) (Split path slash) []) in
    let out := (if rooted then "/" else EmptyString)
                 +:+ String.concat "/" kept in
    if String.eqb out EmptyString then "." else out.

(** [filepath.Join]: the elements from the first non-empty one on, joined
    with the separator and cleaned. *)
Fixpoint Join (elem : list string) : string :=
  match elem with
  | [] => EmptyString
  | e :: rest =>
      if String.eqb e EmptyString then Join rest
      else Clean (String.concat "/" elem)
  end.

End filepath.

(** ** Constants and configuration (the package-level variables) *)

Definition exitCodeDifferentDimension : Z := 65.
Definition exitCodeDifferentPixels : Z := 66.

Definition defaultThreshold : string := "0.015".
Definition defaultSrcDir : string := "src".
Definition defaultTargetDir : string := "target".
Definition tmpDir : string := "tmp".
Definition container : string := "arisawa/pixelmatch:v5.1.0".

Record config := mkConfig {
  threshold : string;
  srcDir : string;
  targetDir : string
}.

(** [flag.Arg(i)]: the i-th argument left after the flags, the empty string
    when there is none. [args] is [flag.Args()]. *)
Definition flag_Arg (args : list string) (i : nat) : string :=
  nth i args EmptyString.

(** Lines 68-76 of [main]: the three package variables, each read from a
    positional argument and replaced by its default when empty. *)
Definition read_args (args : list string) : config :=
  let threshold := flag_Arg args 0 in
  let threshold :=
    if String.eqb threshold EmptyString then defaultThreshold else threshold in
  let srcDir := flag_Arg args 1 in
  let srcDir :=
    if String.eqb srcDir EmptyString then defaultSrcDir else srcDir in
  let targetDir := flag_Arg args 1 in
  let targetDir :=
    if String.eqb targetDir EmptyString then defaultTargetDir else targetDir in
  {| threshold := threshold; srcDir := srcDir; targetDir := targetDir |}.

(** ** The platform: operating system and Go runtime under the program *)

(** A Go [error], as [%v] prints it. *)
Definition go_error : Type := string.

(** A call that returns a value and an error. *)
Inductive io (A : Type) : Type :=
| Success (a : A)
| Failure (err : go_error).
Arguments Success {A} a.
Arguments Failure {A} err.

(** What [os.Stat] returns: the [FileInfo] (of which the program reads
    [IsDir()] only), or an error for which [os.IsNotExist] holds or not. *)
Inductive stat_result : Type :=
| StatInfo (isDir : bool)
| StatError (notExist : bool) (err : go_error).

Definition IsNotExist (r : stat_result) : bool :=
  match r with
  | StatError notExist _ => notExist
  | StatInfo _ => false
  end.

(** What [cmd.CombinedOutput()] leaves behind: the captured text, the error
    ([None] is [nil]: the command ran and exited with status 0) and
    [cmd.ProcessState.ExitCode()], which is -1 when the process did not
    start or was killed by a signal. *)
Record cmd_result := mkCmd {
  cmd_out : string;
  cmd_err : option go_error;
  cmd_ExitCode : Z
}.

Record Platform (W : Type) := mkPlatform {
  exec_LookPath : string → W → option go_error * W;
  strconv_ParseFloat : string → nat → option go_error;
  os_Stat : string → W → stat_result * W;
  os_Mkdir : string → Z → W → option go_error * W;
  ioutil_ReadDir : string → W → io (list string) * W;
  ioutil_ReadFile : string → W → io string * W;
  ioutil_WriteFile : string → string → Z → W → option go_error * W;
  os_Remove : string → W → option go_error * W;
  os_Rename : string → string → W → option go_error * W;
  filepath_Abs : string → W → io string * W;
  exec_CombinedOutput : list string → W → cmd_result * W;
  (** what a [tabwriter.NewWriter(os.Stdout, 0, 8, 0, '\t', 0)] writes to
      standard output for the bytes written to it up to [Flush] *)
  tabwriter_Flush : string → string
}.
Arguments exec_LookPath {W}. Arguments strconv_ParseFloat {W}.
Arguments os_Stat {W}. Arguments os_Mkdir {W}. Arguments ioutil_ReadDir {W}.
Arguments ioutil_ReadFile {W}. Arguments ioutil_WriteFile {W}.
Arguments os_Remove {W}. Arguments os_Rename {W}. Arguments filepath_Abs {W}.
Arguments exec_CombinedOutput {W}. Arguments tabwriter_Flush {W}.

(** The calls of a run, each with the answer it got. *)
Inductive event : Type :=
| EvLookPath (file : string) (err : option go_error)
| EvStat (name : string) (r : stat_result)
| EvMkdir (name : string) (perm : Z) (err : option go_error)
| EvReadDir (dirname : string) (r : io (list string))
| EvReadFile (filename : string) (r : io string)
| EvWriteFile (filename data : string) (perm : Z) (err : option go_error)
| EvRemove (name : string) (err : option go_error)
| EvRename (oldpath newpath : string) (err : option go_error)
| EvAbs (path : string) (r : io string)
| EvRun (argv : list string) (r : cmd_result).

(** How a computation ends: normally, in [log.Fatal] (message on standard
    error, exit status 1) or in a run-time panic (exit status 2). *)
Inductive result (W A : Type) : Type :=
| Ok (a : A) (w : W)
| Fatal (msg : string) (w : W)
| Panic (msg : string) (w : W).
Arguments Ok {W A} a w.
Arguments Fatal {W A} msg w.
Arguments Panic {W A} msg w.

(** A run: the calls made, the chunks written to standard output, both in
    order, and how it ended. *)
Record run (W A : Type) := mkRun {
  events : list event;
  stdout : list string;
  outcome : result W A
}.
Arguments mkRun {W A}.
Arguments events {W A}. Arguments stdout {W A}. Arguments outcome {W A}.

Definition exit_status {W A} (r : run W A) : Z :=
  match outcome r with
  | Ok _ _ => 0
  | Fatal _ _ => 1
  | Panic _ _ => 2
  end.

Definition final_world {W A} (r : run W A) : W :=
  match outcome r with
  | Ok _ w | Fatal _ w | Panic _ w => w
  end.

Definition M (W A : Type) : Type := W → run W A.

Definition ret {W A} (a : A) : M W A :=
  fun w => mkRun [] [] (Ok a w).

(** The calls and the output of what ran before, put in front of a run. *)
Definition prepend {W A} (evs : list event) (out : list string)
    (r : run W A) : run W A :=
  match r with
  | mkRun evs' out' res => mkRun (evs ++ evs') (out ++ out') res
  end.

Definition bind {W A B} (m : M W A) (k : A → M W B) : M W B :=
  fun w =>
    match m w with
    | mkRun evs out (Ok a w1) => prepend evs out (k a w1)
    | mkRun evs out (Fatal msg w1) => mkRun evs out (Fatal msg w1)
    | mkRun evs out (Panic msg w1) => mkRun evs out (Panic msg w1)
    end.

(** [log.Fatal], [log.Fatalf]. *)
Definition fatal {W A} (msg : string) : M W A :=
  fun w => mkRun [] [] (Fatal msg w).

Definition panic {W A} (msg : string) : M W A :=
  fun w => mkRun [] [] (Panic msg w).

(** [fmt.Printf], [fmt.Println]: one chunk on standard output. *)
Definition print {W} (text : string) : M W unit :=
  fun w => mkRun [] [text] (Ok tt w).

(** A call to the platform, recorded with its answer. *)
Definition call {W A} (op : W → A * W) (ev : A → event) : M W A :=
  fun w => let '(a, w') := op w in mkRun [ev a] [] (Ok a w').

Notation "'let*' x ':=' m 'in' k" := (bind m (fun x => k))
  (at level 10, x name, m at level 100, k at level 200).

(** [if err != nil { log.Fatalf(format, err) }]. *)
Definition fatal_if {W} (err : option go_error) (format : string) : M W unit :=
  match err with
  | Some e => fatal (format +:+ e)
  | None => ret tt
  end.

Fixpoint for_each {W A} (l : list A) (body : A → M W unit) : M W unit :=
  match l with
  | [] => ret tt
  | x :: rest => let* _ := body x in for_each rest body
  end.

(** ** The program *)

(** The two lists [main] accumulates during the scan. *)
Record report := mkReport {
  diffDimensions : list string;
  diffPixels : list diffPixel
}.

Definition tab : string := GoStrings.char "009"%char.

Fixpoint concat_strings (l : list string) : string :=
  match l with
  | [] => EmptyString
  | s :: rest => s +:+ concat_strings rest
  end.

Section Program.
Context {W : Type} (P : Platform W).

Definition LookPath (file : string) : M W (option go_error) :=
  call (exec_LookPath P file) (EvLookPath file).
Definition Stat (name : string) : M W stat_result :=
  call (os_Stat P name) (EvStat name).
Definition Mkdir (name : string) (perm : Z) : M W (option go_error) :=
  call (os_Mkdir P name perm) (EvMkdir name perm).
Definition ReadDir (dirname : string) : M W (io (list string)) :=
  call (ioutil_ReadDir P dirname) (EvReadDir dirname).
Definition ReadFile (filename : string) : M W (io string) :=
  call (ioutil_ReadFile P filename) (EvReadFile filename).
Definition WriteFile (filename data : string) (perm : Z)
  : M W (option go_error) :=
  call (ioutil_WriteFile P filename data perm) (EvWriteFile filename data perm).
Definition Remove (name : string) : M W (option go_error) :=
  call (os_Remove P name) (EvRemove name).
Definition Rename (oldpath newpath : string) : M W (option go_error) :=
  call (os_Rename P oldpath newpath) (EvRename oldpath newpath).
Definition Abs (path : string) : M W (io string) :=
  call (filepath_Abs P path) (EvAbs path).
Definition CombinedOutput (argv : list string) : M W cmd_result :=
  call (exec_CombinedOutput P argv) (EvRun argv).

Definition Println (s : string) : M W unit := print (s +:+ nl).

Definition validate (c : config) : M W unit :=
  let* err := LookPath "docker" in
  let* _ := match err with
            | Some _ => fatal "docker is not installed"
            | None => ret tt
            end in
  let* _ := fatal_if (strconv_ParseFloat P (threshold c) 32)
              "threshold error: " in
  let* stat := Stat (srcDir c) in
  match stat with
  | StatError _ err => fatal ("source directory error: " +:+ err)
  | StatInfo isDir =>
      let* _ := if negb isDir
                then fatal ("source: " +:+ srcDir c +:+ " is not directory")
                else ret tt in
      let* stat := Stat (targetDir c) in
      match stat with
      | StatError _ err => fatal ("target directory error: " +:+ err)
      | StatInfo isDir =>
          if negb isDir
          then fatal ("target: " +:+ targetDir c +:+ " is not directory")
          else ret tt
      end
  end.

(** When [os.Stat] fails for another reason than absence, [stat] is nil
    and [stat.IsDir()] panics. *)
Definition checkTmpDir : M W unit :=
  let* stat := Stat tmpDir in
  if IsNotExist stat then
    let* err := Mkdir tmpDir 493 in
    fatal_if err "tmp directory error: "
  else
    match stat with
    | StatInfo isDir =>
        if negb isDir then fatal (tmpDir +:+ " is not directory")
        else ret tt
    | StatError _ _ =>
        panic "invalid memory address or nil pointer dereference"
    end.

Definition copyFile (src dst : string) : M W unit :=
  let* b := ReadFile src in
  match b with
  | Failure err => fatal ("read file error: " +:+ err)
  | Success b =>
      let* err := WriteFile dst b 420 in
      fatal_if err "copy file error: "
  end.

(** The paths [main] derives from a file name. *)
Definition srcFile (c : config) (fileName : string) : string :=
  filepath.Join [srcDir c; fileName].
Definition targetFile (c : config) (fileName : string) : string :=
  filepath.Join [targetDir c; fileName].
Definition tmpSrcFile (fileName : string) : string :=
  filepath.Join [tmpDir; "src-" +:+ fileName].
Definition tmpTargetFile (fileName : string) : string :=
  filepath.Join [tmpDir; "target-" +:+ fileName].
Definition diffFileName (fileName : string) : string :=
  "diff-" +:+ fileName.
Definition diffFile (fileName : string) : string :=
  filepath.Join [tmpDir; diffFileName fileName].

Definition docker_argv (c : config) (absTmpDir fileName : string)
  : list string :=
  let volume := absTmpDir +:+ ":/app/" +:+ tmpDir in
  [ "docker"; "run"; "--rm"; "-v"; volume; container;
    tmpSrcFile fileName; tmpTargetFile fileName; diffFile fileName;
    threshold c ].

(** Lines 121-142: what [main] does with the answer of the comparator. *)
Definition classify (fileName : string) (r : cmd_result) (acc : report)
  : M W report :=
  match cmd_err r with
  | Some err =>
      if cmd_ExitCode r =? exitCodeDifferentDimension then
        ret {| diffDimensions := diffDimensions acc ++ [fileName];
               diffPixels := diffPixels acc |}
      else if cmd_ExitCode r =? exitCodeDifferentPixels then
        match newDiffPixel fileName (cmd_out r) with
        | None => panic "index out of range"
        | Some dp =>
            let acc' := {| diffDimensions := diffDimensions acc;
                           diffPixels := diffPixels acc ++ [dp] |} in
            let* err := Rename (diffFile fileName) (diffFileName fileName) in
            let* _ := fatal_if err "file move error: " in
            ret acc'
        end
      else fatal ("command execution error: " +:+ err)
  | None =>
      let* err := Remove (diffFile fileName) in
      let* _ := fatal_if err "file remove error: " in
      ret acc
  end.

(** Lines 143-148: the two staged copies are removed. *)
Definition cleanup (fileName : string) : M W unit :=
  let* err := Remove (tmpSrcFile fileName) in
  let* _ := fatal_if err "tmp source file remove error: " in
  let* err := Remove (tmpTargetFile fileName) in
  fatal_if err "tmp source file remove error: ".

(** Lines 101-148: the staged pair is compared. *)
Definition compare (c : config) (fileName : string) (acc : report)
  : M W report :=
  let* _ := copyFile (srcFile c fileName) (tmpSrcFile fileName) in
  let* _ := copyFile (targetFile c fileName) (tmpTargetFile fileName) in
  let* _ := print ("check " +:+ srcFile c fileName +:+ nl) in
  let* abs := Abs tmpDir in
  match abs with
  | Failure _ => fatal ("cannot get absolute path: " +:+ tmpDir)
  | Success absTmpDir =>
      let* r := CombinedOutput (docker_argv c absTmpDir fileName) in
      let* acc' := classify fileName r acc in
      let* _ := cleanup fileName in
      ret acc'
  end.

(** Lines 89-148: the body of the loop over the directory entries. *)
Definition visit (c : config) (fileName : string) (acc : report)
  : M W report :=
  if negb (GoStrings.HasSuffix fileName ".png") then ret acc
  else
    let* stat := Stat (targetFile c fileName) in
    if IsNotExist stat then ret acc
    else compare c fileName acc.

(** Lines 88-149: [for _, f := range files]. *)
Fixpoint scan (c : config) (files : list string) (acc : report)
  : M W report :=
  match files with
  | [] => ret acc
  | fileName :: rest =>
      let* acc' := visit c fileName acc in
      scan c rest acc'
  end.

Definition row (dp : diffPixel) : string :=
  file dp +:+ tab +:+ pixels dp +:+ tab +:+ error dp +:+ nl.

(** Lines 151-165. *)
Definition print_report (acc : report) : M W unit :=
  let* _ :=
    if (0 <? length (diffDimensions acc))%nat then
      let* _ := Println "-- dimensions do not match --" in
      for_each (diffDimensions acc) Println
    else ret tt in
  if (0 <? length (diffPixels acc))%nat then
    let* _ := Println "-- Different pixels are found --" in
    let w := concat_strings (map row (diffPixels acc)) in
    print (tabwriter_Flush P w)
  else ret tt.

Definition main (args : list string) : M W unit :=
  let c := read_args args in
  let* _ := validate c in
  let* _ := checkTmpDir in
  let* files := ReadDir (srcDir c) in
  match files with
  | Failure err => fatal ("read " +:+ srcDir c +:+ " error: " +:+ err)
  | Success files =>
      let* acc := scan c files {| diffDimensions := []; diffPixels := [] |} in
      print_report acc
  end.

End Program.

(** ** A reference platform

    One implementation of [Platform], used to run the program on examples:
    the file system is a finite map from paths to regular files and
    directories, paths are compared as written, and the container is a
    function from its arguments and the file system to its answer and the
    file system it leaves. *)

Module RefOS.
Import GoStrings.

Inductive node : Type :=
| File (data : string)
| Dir.

Record world := mkWorld {
  files : gmap string node;
  executables : list string;
  cwd : string
}.

Definition tool : Type :=
  list string → gmap string node → cmd_result * gmap string node.

Definition with_files (w : world) (fs : gmap string node) : world :=
  {| files := fs; executables := executables w; cwd := cwd w |}.

Definition is_executable (w : world) (file : string) : bool :=
  existsb (String.eqb file) (executables w).

Definition not_found (op name : string) : go_error :=
  op +:+ " " +:+ name +:+ ": no such file or directory".

(** The name of [path] inside [dir], when [path] is an entry of [dir]. *)
Definition entry_of (dir path : string) : option string :=
  let pre := dir +:+ "/" in
  let name := drop_bytes (String.length pre) path in
  if HasPrefix path pre && negb (String.eqb name EmptyString)
     && negb (contains filepath.slash name)
  then Some name else None.

Definition entries (fs : gmap string node) (dir : string) : list string :=
  omap (fun kv => entry_of dir kv.1) (map_to_list fs).

Definition below (dir path : string) : bool :=
  HasPrefix path (dir +:+ "/").

Definition has_entries (fs : gmap string node) (dir : string) : bool :=
  existsb (fun kv => below dir kv.1) (map_to_list fs).

Fixpoint insert_sorted (s : string) (l : list string) : list string :=
  match l with
  | [] => [s]
  | x :: rest => if String.leb s x then s :: l else x :: insert_sorted s rest
  end.

Definition sort_names (l : list string) : list string :=
  foldr insert_sorted [] l.

(** The path a key gets when the directory [old] becomes [new]. *)
Definition rebase (old new path : string) : string :=
  if String.eqb path old then new
  else if below old path then new +:+ drop_bytes (String.length old) path
  else path.

Definition move_tree (old new : string) (fs : gmap string node)
  : gmap string node :=
  list_to_map (map (fun kv => (rebase old new kv.1, kv.2)) (map_to_list fs)).

Definition LookPath (file : string) (w : world) : option go_error * world :=
  (if is_executable w file then None
   else Some ("exec: " +:+ file +:+ ": executable file not found in $PATH"),
   w).

Definition is_digit (c : ascii) : bool :=
  (48 <=? nat_of_ascii c)%nat && (nat_of_ascii c <=? 57)%nat.

(** Digits with at most one point and at least one digit. *)
Fixpoint decimal (s : string) (seen_point seen_digit : bool) : bool :=
  match s with
  | EmptyString => seen_digit
  | String c rest =>
      if is_digit c then decimal rest seen_point true
      else if Ascii.eqb c "."%char && negb seen_point
           then decimal rest true seen_digit
           else false
  end.

(** [strconv.ParseFloat] on plain decimal literals with an optional
    sign. *)
Definition ParseFloat (s : string) (bitSize : nat) : option go_error :=
  let unsigned :=
    match s with
    | String c rest =>
        if Ascii.eqb c "+"%char || Ascii.eqb c "-"%char then rest else s
    | EmptyString => s
    end in
  if decimal unsigned false false then None
  else Some ("strconv.ParseFloat: parsing " +:+ s +:+ ": invalid syntax").

Definition Stat (name : string) (w : world) : stat_result * world :=
  (match files w !! name with
   | Some (File _) => StatInfo false
   | Some Dir => StatInfo true
   | None => StatError true (not_found "stat" name)
   end, w).

Definition Mkdir (name : string) (perm : Z) (w : world)
  : option go_error * world :=
  match files w !! name with
  | Some _ => (Some ("mkdir " +:+ name +:+ ": file exists"), w)
  | None => (None, with_files w (<[name := Dir]> (files w)))
  end.

Definition ReadDir (dirname : string) (w : world)
  : io (list string) * world :=
  (match files w !! dirname with
   | Some Dir => Success (sort_names (entries (files w) dirname))
   | Some (File _) =>
       Failure ("readdirent " +:+ dirname +:+ ": not a directory")
   | None => Failure (not_found "open" dirname)
   end, w).

Definition ReadFile (filename : string) (w : world) : io string * world :=
  (match files w !! filename with
   | Some (File data) => Success data
   | Some Dir => Failure ("read " +:+ filename +:+ ": is a directory")
   | None => Failure (not_found "open" filename)
   end, w).

Definition WriteFile (filename data : string) (perm : Z) (w : world)
  : option go_error * world :=
  match files w !! filename with
  | Some Dir => (Some ("open " +:+ filename +:+ ": is a directory"), w)
  | _ => (None, with_files w (<[filename := File data]> (files w)))
  end.

Definition Remove (name : string) (w : world) : option go_error * world :=
  match files w !! name with
  | None => (Some (not_found "remove" name), w)
  | Some (File _) => (None, with_files w (delete name (files w)))
  | Some Dir =>
      if has_entries (files w) name
      then (Some ("remove " +:+ name +:+ ": directory not empty"), w)
      else (None, with_files w (delete name (files w)))
  end.

Definition Rename (oldpath newpath : string) (w : world)
  : option go_error * world :=
  let fs := files w in
  let failed reason :=
    (Some ("rename " +:+ oldpath +:+ " " +:+ newpath +:+ ": " +:+ reason),
     w) in
  match fs !! oldpath with
  | None => failed "no such file or directory"
  | Some (File data) =>
      match fs !! newpath with
      | Some Dir => failed "file exists"
      | _ => (None, with_files w (<[newpath := File data]> (delete oldpath fs)))
      end
  | Some Dir =>
      if below oldpath newpath then failed "invalid argument"
      else match fs !! newpath with
           | Some (File _) => failed "not a directory"
           | Some Dir =>
               if has_entries fs newpath then failed "file exists"
               else (None, with_files w
                             (move_tree oldpath newpath (delete newpath fs)))
           | None => (None, with_files w (move_tree oldpath newpath fs))
           end
  end.

Definition Abs (path : string) (w : world) : io string * world :=
  (Success (if HasPrefix path "/" then filepath.Clean path
            else filepath.Join [cwd w; path]), w).

Definition CombinedOutput (t : tool) (argv : list string) (w : world)
  : cmd_result * world :=
  match argv with
  | name :: _ =>
      if is_executable w name then
        let '(r, fs) := t argv (files w) in (r, with_files w fs)
      else
        ({| cmd_out := EmptyString;
            cmd_err := Some ("exec: " +:+ name
                             +:+ ": executable file not found in $PATH");
            cmd_ExitCode := -1 |}, w)
  | [] => ({| cmd_out := EmptyString;
              cmd_err := Some "exec: no command";
              cmd_ExitCode := -1 |}, w)
  end.

(** *** The tab writer, for tables whose cells are plain text

    Cells are separated by tabs; the last cell of a line belongs to no
    column. A column is as wide as its widest cell, rounded up to a
    multiple of the tab width 8, and a cell is padded with tabs. *)

Definition cells_of (line : string) : list string := Split line "009"%char.

Definition column_width (rows : list (list string)) (j : nat) : nat :=
  foldr (fun cells width =>
           if (S j <? length cells)%nat
           then Nat.max width (String.length (nth j cells EmptyString))
           else width) 0%nat rows.

Fixpoint tabs (n : nat) : string :=
  match n with
  | O => EmptyString
  | S n' => tab +:+ tabs n'
  end.

Definition pad (textw cellw : nat) : string :=
  let cellw := ((cellw + 8 - 1) / 8 * 8)%nat in
  tabs (((cellw - textw) + 8 - 1) / 8)%nat.

Fixpoint write_cells (rows : list (list string)) (j : nat)
    (cells : list string) : string :=
  match cells with
  | [] => EmptyString
  | [last] => last
  | c :: rest =>
      c +:+ pad (String.length c) (column_width rows j)
        +:+ write_cells rows (S j) rest
  end.

Definition text_lines (buf : string) : list string :=
  match reverse (Split buf LF) with
  | last :: before =>
      if String.eqb last EmptyString then reverse before
      else reverse (last :: before)
  | [] => []
  end.

Definition Flush (buf : string) : string :=
  let rows := map cells_of (text_lines buf) in
  concat_strings (map (fun cells => write_cells rows 0 cells +:+ nl) rows).

Definition platform (t : tool) : Platform world :=
  {| exec_LookPath := LookPath;
     strconv_ParseFloat := ParseFloat;
     os_Stat := Stat;
     os_Mkdir := Mkdir;
     ioutil_ReadDir := ReadDir;
     ioutil_ReadFile := ReadFile;
     ioutil_WriteFile := WriteFile;
     os_Remove := Remove;
     os_Rename := Rename;
     filepath_Abs := Abs;
     exec_CombinedOutput := CombinedOutput t;
     tabwriter_Flush := Flush |}.

End RefOS.

(** ** Example worlds and containers for the reference platform *)

Module Examples.
Import RefOS.

(** Two directories of screenshots: [a.png] differs in some pixels,
    [b.png] has no counterpart, [c.png] differs in size, [d.png] is the
    same on both sides. *)
Definition shots : world :=
  {| files := list_to_map
       [ ("src", Dir); ("target", Dir); ("tmp", Dir);
         ("src/a.png", File "AAAA"); ("target/a.png", File "AAAB");
         ("src/b.png", File "BBBB");
         ("src/c.png", File "CC"); ("target/c.png", File "CCCC");
         ("src/d.png", File "DDDD"); ("target/d.png", File "DDDD");
         ("src/notes.txt", File "n"); ("target/notes.txt", File "n") ];
     executables := ["docker"];
     cwd := "/work" |}.

Definition exited (code : Z) (status out : string) : cmd_result :=
  {| cmd_out := out;
     cmd_err := if code =? 0 then None else Some ("exit status " +:+ status);
     cmd_ExitCode := code |}.

Definition answer_same : cmd_result :=
  exited 0 "0" ("matched in: 5ms" +:+ nl +:+ "different pixels: 0" +:+ nl
                +:+ "error: 0%" +:+ nl).

Definition answer_differs : cmd_result :=
  exited 66 "66" ("matched in: 5ms" +:+ nl +:+ "different pixels: 1234" +:+ nl
                  +:+ "error: 0.042%" +:+ nl).

Definition answer_sizes : cmd_result :=
  exited 65 "65" ("Image dimensions do not match" +:+ nl).

Definition answer_broken : cmd_result :=
  exited 1 "1" ("docker: image not found" +:+ nl).

Definition answer_silent : cmd_result := exited 0 "0" EmptyString.

(** A stand-in for the pixelmatch container: it reads the two staged
    files, answers 65 when their sizes differ, and otherwise writes the diff
    image and answers 0 or 66. *)
Definition pixelmatch : tool := fun argv fs =>
  match fs !! nth 6 argv EmptyString, fs !! nth 7 argv EmptyString with
  | Some (File img1), Some (File img2) =>
      if negb (String.length img1 =? String.length img2)%nat then
        (answer_sizes, fs)
      else
        let fs' := <[nth 8 argv EmptyString := File "diff"]> fs in
        if String.eqb img1 img2 then (answer_same, fs')
        else (answer_differs, fs')
  | _, _ => (exited 1 "1" ("Error: ENOENT" +:+ nl), fs)
  end.

(** A container that fails with status 1 and touches nothing. *)
Definition broken : tool := fun _ fs => (answer_broken, fs).

(** A container that reports equal images and writes no diff image. *)
Definition silent : tool := fun _ fs => (answer_silent, fs).

Definition defaults : config := read_args [].

Definition empty_report : report :=
  {| diffDimensions := []; diffPixels := [] |}.

(** The arguments of the container for a file of [shots]. *)
Definition argv_of (fileName : string) : list string :=
  docker_argv defaults "/work/tmp" fileName.

(** One iteration on [shots], with each of the containers. *)
Definition visit_with (t : tool) (fileName : string) : run world report :=
  visit (platform t) defaults fileName empty_report shots.

End Examples.

(** ** Vocabulary of the statements *)

Arguments srcFile : simpl never.
Arguments targetFile : simpl never.
Arguments tmpSrcFile : simpl never.
Arguments tmpTargetFile : simpl never.
Arguments diffFile : simpl never.
Arguments diffFileName : simpl never.
Arguments docker_argv : simpl never.

Definition is_png (fileName : string) : bool :=
  GoStrings.HasSuffix fileName ".png".

(** Whether the counterpart of [fileName] in the target directory exists
    in the world [w], as line 97 decides it: [os.Stat] does not answer
    with an error for which [os.IsNotExist] holds. *)
Definition target_exists {W} (P : Platform W) (c : config)
    (fileName : string) (w : W) : bool :=
  negb (IsNotExist (os_Stat P (targetFile c fileName) w).1).

(** The progress line of a compared file. *)
Definition progress (c : config) (fileName : string) : string :=
  "check " +:+ srcFile c fileName +:+ nl.

(** The calls of one iteration up to the answer [r] of the comparator: the
    counterpart is found, both files are copied into the workspace, the
    container is run on the copies. *)
Definition staging (c : config) (fileName : string) (st : stat_result)
    (d1 d2 absTmpDir : string) (r : cmd_result) : list event :=
  [ EvStat (targetFile c fileName) st;
    EvReadFile (srcFile c fileName) (Success d1);
    EvWriteFile (tmpSrcFile fileName) d1 420 None;
    EvReadFile (targetFile c fileName) (Success d2);
    EvWriteFile (tmpTargetFile fileName) d2 420 None;
    EvAbs tmpDir (Success absTmpDir);
    EvRun (docker_argv c absTmpDir fileName) r ].

(** Both staged copies removed, without error. *)
Definition removed (fileName : string) : list event :=
  [ EvRemove (tmpSrcFile fileName) None;
    EvRemove (tmpTargetFile fileName) None ].

(** The comparator failed to start, or exited with a status other than 0,
    65 and 66. *)
Definition unexpected (r : cmd_result) : Prop :=
  cmd_err r ≠ None ∧ cmd_ExitCode r ≠ exitCodeDifferentDimension
  ∧ cmd_ExitCode r ≠ exitCodeDifferentPixels.

Definition with_dimension (acc : report) (fileName : string) : report :=
  {| diffDimensions := diffDimensions acc ++ [fileName];
     diffPixels := diffPixels acc |}.

Definition with_pixels (acc : report) (dp : diffPixel) : report :=
  {| diffDimensions := diffDimensions acc;
     diffPixels := diffPixels acc ++ [dp] |}.

Definition is_run (e : event) : Prop :=
  match e with EvRun _ _ => True | _ => False end.

Definition is_remove (e : event) : Prop :=
  match e with EvRemove _ _ => True | _ => False end.

Definition is_scan (e : event) : Prop :=
  match e with EvReadDir _ _ => True | _ => False end.

(** A line [label:value], possibly followed by further colon-separated
    fields. *)
Definition metric_line (label value more : string) : Prop :=
  GoStrings.contains GoStrings.COLON label = false
  ∧ GoStrings.contains GoStrings.COLON value = false
  ∧ GoStrings.ends_field GoStrings.COLON more = true
  ∧ GoStrings.contains GoStrings.LF (label +:+ ":" +:+ value +:+ more)
    = false.

(** The calls of [validate] and [checkTmpDir]. *)
Definition startup_call (e : event) : Prop :=
  match e with
  | EvLookPath _ _ | EvStat _ _ | EvMkdir _ _ _ => True
  | _ => False
  end.

(** The successful moves among the calls: source and destination. *)
Definition moves (evs : list event) : list (string * string) :=
  omap (fun e => match e with
                 | EvRename oldpath newpath None => Some (oldpath, newpath)
                 | _ => None
                 end) evs.

(** The move an iteration makes for a pixel mismatch. *)
Definition move_of (dp : diffPixel) : string * string :=
  (diffFile (file dp), diffFileName (file dp)).

(** The report as the specification words it: the section of the dimension
    mismatches, when there are any, one file name per line; then the section
    of the pixel mismatches, when there are any, one row per record, laid
    out by the tab writer. *)
Definition report_text {W} (P : Platform W) (acc : report) : list string :=
  (match diffDimensions acc with
   | [] => []
   | names =>
       ("-- dimensions do not match --" +:+ nl)
         :: map (fun name => name +:+ nl) names
   end)
  ++
  (match diffPixels acc with
   | [] => []
   | records =>
       [ "-- Different pixels are found --" +:+ nl;
         tabwriter_Flush P
           (concat_strings
              (map (fun dp => file dp +:+ tab +:+ pixels dp +:+ tab
                              +:+ error dp +:+ nl) records)) ]
   end).

Ltac unfold_program :=
  unfold visit, compare, classify, cleanup, copyFile, validate, checkTmpDir,
    fatal_if, Stat, Remove, Rename, ReadFile, WriteFile, Abs, CombinedOutput,
    LookPath, Mkdir, ReadDir, Println in *.

Ltac run_cases :=
  unfold bind, call, ret, fatal, panic, print in *;
  simpl in *; simplify_eq;
  repeat (case_match; simpl in *; simplify_eq);
  simpl in *.

(** How lines 143-148 end for [fileName], as the calls made and the result:
    both copies removed and the scan goes on with [acc], or a removal
    failed and the run is over. *)
Inductive cleaned {W} (fileName : string) (acc : report)
  : list event → result W report → Prop :=
| cleaned_both w :
    cleaned fileName acc (removed fileName) (Ok acc w)
| cleaned_source_failed e w :
    cleaned fileName acc
      [EvRemove (tmpSrcFile fileName) (Some e)]
      (Fatal ("tmp source file remove error: " +:+ e) w)
| cleaned_target_failed e w :
    cleaned fileName acc
      [EvRemove (tmpSrcFile fileName) None;
       EvRemove (tmpTargetFile fileName) (Some e)]
      (Fatal ("tmp source file remove error: " +:+ e) w).

(** How lines 121-148 end for [fileName] once the comparator has answered
    [r]: the calls made after the comparator, and the result. *)
Inductive classified {W} (fileName : string) (acc : report) (r : cmd_result)
  : list event → result W report → Prop :=
| identical more out :
    cmd_err r = None →
    cleaned fileName acc more out →
    classified fileName acc r
      (EvRemove (diffFile fileName) None :: more) out
| identical_diff_not_removed e w :
    cmd_err r = None →
    classified fileName acc r
      [EvRemove (diffFile fileName) (Some e)]
      (Fatal ("file remove error: " +:+ e) w)
| dimension_mismatch more out :
    cmd_err r ≠ None →
    cmd_ExitCode r = exitCodeDifferentDimension →
    cleaned fileName (with_dimension acc fileName) more out →
    classified fileName acc r more out
| pixel_mismatch dp more out :
    cmd_err r ≠ None →
    cmd_ExitCode r = exitCodeDifferentPixels →
    newDiffPixel fileName (cmd_out r) = Some dp →
    cleaned fileName (with_pixels acc dp) more out →
    classified fileName acc r
      (EvRename (diffFile fileName) (diffFileName fileName) None :: more) out
| pixel_mismatch_not_moved dp e w :
    cmd_err r ≠ None →
    cmd_ExitCode r = exitCodeDifferentPixels →
    newDiffPixel fileName (cmd_out r) = Some dp →
    classified fileName acc r
      [EvRename (diffFile fileName) (diffFileName fileName) (Some e)]
      (Fatal ("file move error: " +:+ e) w)
| pixel_mismatch_unparsable w :
    cmd_err r ≠ None →
    cmd_ExitCode r = exitCodeDifferentPixels →
    newDiffPixel fileName (cmd_out r) = None →
    classified fileName acc r [] (Panic "index out of range" w)
| unexpected_answer e w :
    cmd_err r = Some e →
    cmd_ExitCode r ≠ exitCodeDifferentDimension →
    cmd_ExitCode r ≠ exitCodeDifferentPixels →
    classified fileName acc r []
      (Fatal ("command execution error: " +:+ e) w).

Ltac in_list := repeat first [left; reflexivity | right].

Ltac eqb_hyps :=
  repeat match goal with
         | H : (_ =? _) = true |- _ => apply Z.eqb_eq in H
         | H : (_ =? _) = false |- _ => apply Z.eqb_neq in H
         end.

(** The runs of the reference platform on the example world. *)
Module Runs.
Import RefOS Examples.

Definition listing : list string :=
  ["a.png"; "b.png"; "c.png"; "d.png"; "notes.txt"].

Definition a_record : diffPixel :=
  {| file := "a.png"; pixels := "1234"; error := "0.042%" |}.

Definition full_scan : run world report :=
  scan (platform pixelmatch) defaults listing empty_report shots.

Definition full_run : run world unit :=
  main (platform pixelmatch) [] shots.

Definition broken_run : run world unit :=
  main (platform broken) [] shots.

Definition silent_scan : run world report :=
  scan (platform silent) defaults ["d.png"; "a.png"] empty_report shots.

End Runs.

(** ** Further vocabulary: what a run touches *)

(** A file name as a directory listing gives it: without separator. *)
Definition plain (fileName : string) : Prop :=
  GoStrings.contains filepath.slash fileName = false.

(** The paths a call creates, overwrites, moves or deletes. *)
Definition writes_to (e : event) : list string :=
  match e with
  | EvMkdir name _ _ => [name]
  | EvWriteFile filename _ _ _ => [filename]
  | EvRemove name _ => [name]
  | EvRename oldpath newpath _ => [oldpath; newpath]
  | _ => []
  end.

(** The paths one iteration may touch for [fileName]: the two staged
    copies, the transient diff and the stable diff. *)
Definition paths_of (fileName : string) : list string :=
  [ tmpSrcFile fileName; tmpTargetFile fileName; diffFile fileName;
    diffFileName fileName ].

(** A call of the staging that failed: a file could not be read or
    written, or the workspace has no absolute path. *)
Definition staging_failure (e : event) : Prop :=
  match e with
  | EvReadFile _ (Failure _) => True
  | EvWriteFile _ _ _ (Some _) => True
  | EvAbs _ (Failure _) => True
  | _ => False
  end.

(** ** Platforms that fail, for the reference world *)

Module Faulty.
Import RefOS Examples.

(** [os.Stat] refuses [path] for a reason other than absence. *)
Definition denied (path : string) (t : tool) : Platform world :=
  {| exec_LookPath := LookPath;
     strconv_ParseFloat := ParseFloat;
     os_Stat := fun name w =>
       if String.eqb name path
       then (StatError false ("stat " +:+ name +:+ ": permission denied"), w)
       else Stat name w;
     os_Mkdir := Mkdir;
     ioutil_ReadDir := ReadDir;
     ioutil_ReadFile := ReadFile;
     ioutil_WriteFile := WriteFile;
     os_Remove := Remove;
     os_Rename := Rename;
     filepath_Abs := Abs;
     exec_CombinedOutput := CombinedOutput t;
     tabwriter_Flush := Flush |}.

(** No directory can be listed. *)
Definition unlistable (t : tool) : Platform world :=
  {| exec_LookPath := LookPath;
     strconv_ParseFloat := ParseFloat;
     os_Stat := Stat;
     os_Mkdir := Mkdir;
     ioutil_ReadDir := fun dirname w =>
       (Failure ("open " +:+ dirname +:+ ": permission denied"), w);
     ioutil_ReadFile := ReadFile;
     ioutil_WriteFile := WriteFile;
     os_Remove := Remove;
     os_Rename := Rename;
     filepath_Abs := Abs;
     exec_CombinedOutput := CombinedOutput t;
     tabwriter_Flush := Flush |}.

Definition answer_garbled : cmd_result := exited 66 "66" "pixels differ".

(** A container that reports a pixel mismatch on one line. *)
Definition garbled : tool := fun argv fs =>
  (answer_garbled, <[nth 8 argv EmptyString := File "diff"]> fs).

(** The example world with a directory named like a PNG in the source
    directory, and without workspace. *)
Definition odd_shots : world :=
  {| files := <["src/e.png" := Dir]>
                (<["target/e.png" := File "EEEE"]>
                   (delete "tmp" (files shots)));
     executables := ["docker"];
     cwd := "/work" |}.

(** The example world without the container runtime. *)
Definition bare_shots : world :=
  {| files := files shots; executables := []; cwd := "/work" |}.

End Faulty.

(** A call an iteration may make for [fileName]: no listing, nothing
    touched but the paths of the file, the comparator on its copies. *)
Definition call_for (c : config) (fileName : string) (e : event) : Prop :=
  ¬ is_scan e
  ∧ (∀ p, In p (writes_to e) → In p (paths_of fileName))
  ∧ (∀ argv r, e = EvRun argv r →
               ∃ absTmpDir, argv = docker_argv c absTmpDir fileName).

(** A call of the start-up: a lookup, or the creation of the workspace
    directory. *)
Definition startup_safe (e : event) : Prop :=
  startup_call e ∧ ∀ p, In p (writes_to e) → p = tmpDir.

(** The directories listed, in order. *)
Definition listings (evs : list event) : list string :=
  omap (fun e => match e with
                 | EvReadDir dirname _ => Some dirname
                 | _ => None
                 end) evs.

(** How [main] ends, given how the scan ended. *)
Definition after_scan {W} (P : Platform W) (r : run W report) : run W unit :=
  match outcome r with
  | Ok acc w => mkRun (events r) (stdout r ++ report_text P acc) (Ok tt w)
  | Fatal msg w => mkRun (events r) (stdout r) (Fatal msg w)
  | Panic msg w => mkRun (events r) (stdout r) (Panic msg w)
  end.

(** Lines 78-87 of [main]: the start-up and the listing of the source
    directory, up to the loop. *)
Definition list_source {W} (P : Platform W) (c : config)
  : M W (list string) :=
  let* _ := validate P c in
  let* _ := checkTmpDir P in
  let* files := ReadDir P (srcDir c) in
  match files with
  | Failure err => fatal ("read " +:+ srcDir c +:+ " error: " +:+ err)
  | Success files => ret files
  end.

(** ** Facts about the string functions *)

Section StringFacts.
Import GoStrings.

Example newDiffPixel_sample :
  newDiffPixel "y.png" sample_out
  = Some {| file := "y.png"; pixels := "1234"; error := "0.042" |}.
Proof. vm_compute. reflexivity. Qed.

Example Join_tmp_src :
  filepath.Join ["tmp"; "src-" +:+ "a.png"] = "tmp/src-a.png".
Proof. vm_compute. reflexivity. Qed.

Example Join_cleans :
  filepath.Join ["./shots//"; "a.png"] = "shots/a.png".
Proof. vm_compute. reflexivity. Qed.

Lemma app_String (c : ascii) (a b : string) :
  String c a +:+ b = String c (a +:+ b).
Proof. reflexivity. Qed.

Lemma app_Empty (b : string) : EmptyString +:+ b = b.
Proof. reflexivity. Qed.

Lemma nl_app (s : string) : nl +:+ s = String LF s.
Proof. reflexivity. Qed.

Lemma contains_app (c : ascii) (a b : string) :
  contains c (a +:+ b) = contains c a || contains c b.
Proof.
  induction a as [|x a IH]; [reflexivity|].
  rewrite app_String. simpl. rewrite IH. apply orb_assoc.
Qed.

Lemma Split_not_nil (s : string) (c : ascii) : Split s c ≠ [].
Proof.
  destruct s as [|x s]; simpl; [discriminate|].
  destruct (Ascii.eqb x c); [discriminate|].
  destruct (Split s c); discriminate.
Qed.

(** A field that does not contain the separator comes out whole. *)
Lemma Split_field (a b : string) (c : ascii) :
  contains c a = false → Split (a +:+ String c b) c = a :: Split b c.
Proof.
  induction a as [|x a IH]; intros Ha.
  - rewrite app_Empty. simpl. by rewrite Ascii.eqb_refl.
  - simpl in Ha. apply orb_false_elim in Ha as [Hx Ha].
    rewrite app_String. simpl. rewrite Hx, (IH Ha). reflexivity.
Qed.

Lemma Split_whole (a : string) (c : ascii) :
  contains c a = false → Split a c = [a].
Proof.
  induction a as [|x a IH]; intros Ha; [reflexivity|].
  simpl in Ha. apply orb_false_elim in Ha as [Hx Ha].
  simpl. rewrite Hx, (IH Ha). reflexivity.
Qed.

(** There is a second field exactly when the separator occurs. *)
Lemma Split_second_None (s : string) (c : ascii) :
  Split s c !! 1%nat = None ↔ contains c s = false.
Proof.
  induction s as [|x s IH]; simpl; [done|].
  destruct (Ascii.eqb x c) eqn:Hx; simpl.
  - pose proof (Split_not_nil s c).
    destruct (Split s c); [done|]. split; discriminate.
  - pose proof (Split_not_nil s c).
    destruct (Split s c) as [|field fields]; [done|]. exact IH.
Qed.

Lemma Split_first (a rest : string) (c : ascii) :
  contains c a = false → ends_field c rest = true →
  ∃ fields, Split (a +:+ rest) c = a :: fields.
Proof.
  intros Ha Hrest. destruct rest as [|c' rest].
  - exists []. replace (a +:+ EmptyString) with a.
    + by apply Split_whole.
    + clear Ha. induction a as [|x a IH]; [done|].
      rewrite app_String. by rewrite <- IH.
  - simpl in Hrest. apply Ascii.eqb_eq in Hrest as ->.
    exists (Split rest c). by apply Split_field.
Qed.

Lemma newDiffPixel_file (fileName out : string) (dp : diffPixel) :
  newDiffPixel fileName out = Some dp → file dp = fileName.
Proof.
  unfold newDiffPixel. intros H.
  destruct (Split out LF !! 1%nat) as [line1|]; [simpl in H|done].
  destruct (Split out LF !! 2%nat) as [line2|]; [simpl in H|done].
  destruct (Split line1 COLON !! 1%nat); [simpl in H|done].
  destruct (Split line2 COLON !! 1%nat); [simpl in H|done].
  by simplify_eq.
Qed.

End StringFacts.

(** ** The parser of the comparator's output *)

Section Parser.
Import GoStrings.

(** C5. When the second and the third line of the captured text are
    colon-delimited [label:value] pairs, [newDiffPixel] returns the
    white-space-trimmed value after the first colon of the second line as
    the pixel count and that of the third line as the error rate; the sample
    text of the specification gives 1234 and 0.042. *)
Theorem newDiffPixel_label_value
    (fileName header label1 value1 more1 label2 value2 more2 rest : string) :
  contains LF header = false →
  metric_line label1 value1 more1 →
  metric_line label2 value2 more2 →
  ends_field LF rest = true →
  newDiffPixel fileName
    (header +:+ nl +:+ (label1 +:+ ":" +:+ value1 +:+ more1)
            +:+ nl +:+ (label2 +:+ ":" +:+ value2 +:+ more2) +:+ rest)
  = Some {| file := fileName;
            pixels := TrimSpace value1;
            error := TrimSpace value2 |}
  ∧ newDiffPixel fileName sample_out
    = Some {| file := fileName; pixels := "1234"; error := "0.042" |}.
Proof.
  intros Hheader (Hl1 & Hv1 & Hm1 & Hline1) (Hl2 & Hv2 & Hm2 & Hline2) Hrest.
  split; [|vm_compute; reflexivity].
  unfold newDiffPixel.
  rewrite nl_app, (Split_field _ _ _ Hheader).
  rewrite nl_app, (Split_field _ _ _ Hline1).
  destruct (Split_first _ rest _ Hline2 Hrest) as [fields ->].
  simpl.
  change (":" +:+ value1 +:+ more1) with (String COLON (value1 +:+ more1)).
  change (":" +:+ value2 +:+ more2) with (String COLON (value2 +:+ more2)).
  rewrite (Split_field _ _ _ Hl1), (Split_field _ _ _ Hl2).
  destruct (Split_first _ more1 _ Hv1 Hm1) as [f1 ->].
  destruct (Split_first _ more2 _ Hv2 Hm2) as [f2 ->].
  reflexivity.
Qed.

Lemma newDiffPixel_label_value_witness :
  newDiffPixel "a.png"
    ("matched in: 5ms" +:+ nl
       +:+ ("different pixels" +:+ ":" +:+ " 1234" +:+ EmptyString)
       +:+ nl +:+ ("error" +:+ ":" +:+ " 0.042%" +:+ ":x") +:+ nl)
  = Some {| file := "a.png";
            pixels := TrimSpace " 1234";
            error := TrimSpace " 0.042%" |}
  ∧ newDiffPixel "a.png" sample_out
    = Some {| file := "a.png"; pixels := "1234"; error := "0.042" |}.
Proof.
  apply (newDiffPixel_label_value "a.png" "matched in: 5ms"
           "different pixels" " 1234" EmptyString "error" " 0.042%" ":x" nl);
    try (repeat split; reflexivity).
Defined.

(** C6. The parser is partial: it panics (an index out of range) exactly
    when the captured text has fewer than three lines or its second or third
    line contains no colon; the empty text is such an input. *)
Theorem newDiffPixel_partial (fileName out : string) :
  (newDiffPixel fileName out = None ↔
     (length (Split out LF) < 3)%nat
     ∨ (∃ line, Split out LF !! 1%nat = Some line
                ∧ contains COLON line = false)
     ∨ (∃ line, Split out LF !! 2%nat = Some line
                ∧ contains COLON line = false))
  ∧ newDiffPixel fileName EmptyString = None.
Proof.
  split; [|reflexivity].
  unfold newDiffPixel.
  destruct (Split out LF !! 1%nat) as [line1|] eqn:H1; simpl.
  - destruct (Split out LF !! 2%nat) as [line2|] eqn:H2; simpl.
    + apply lookup_lt_Some in H2 as Hlen.
      destruct (Split line1 COLON !! 1%nat) as [p|] eqn:Hp; simpl.
      * destruct (Split line2 COLON !! 1%nat) as [e|] eqn:He; simpl.
        -- split; [discriminate|].
           intros [?|[(l & ? & Hl)|(l & ? & Hl)]]; [lia| |]; simplify_eq;
             apply Split_second_None in Hl; congruence.
        -- split; [|done]. intros _. right. right. exists line2.
           split; [done|]. by apply Split_second_None.
      * split; [|done]. intros _. right. left. exists line1.
        split; [done|]. by apply Split_second_None.
    + split; [|done]. intros _. left. apply lookup_ge_None in H2. lia.
  - split; [|done]. intros _. left. apply lookup_ge_None in H1. lia.
Qed.

End Parser.

(** ** One iteration of the scan *)

Section Visit.
Context {W : Type} (P : Platform W).
Implicit Types (c : config) (acc : report) (w : W).

(** The iterations after which the scan goes on. *)
Lemma visit_Ok c fileName acc w acc' w' :
  outcome (visit P c fileName acc w) = Ok acc' w' →
  (is_png fileName = false ∧ acc' = acc
   ∧ visit P c fileName acc w = mkRun [] [] (Ok acc w))
  ∨ (is_png fileName = true ∧ target_exists P c fileName w = false
     ∧ acc' = acc
     ∧ ∃ st, visit P c fileName acc w
             = mkRun [EvStat (targetFile c fileName) st] [] (Ok acc w'))
  ∨ (is_png fileName = true ∧ target_exists P c fileName w = true
     ∧ stdout (visit P c fileName acc w) = [progress c fileName]
     ∧ ∃ st d1 d2 absTmpDir r,
         (cmd_err r = None ∧ acc' = acc
          ∧ events (visit P c fileName acc w)
            = staging c fileName st d1 d2 absTmpDir r
                ++ [EvRemove (diffFile fileName) None] ++ removed fileName)
         ∨ (cmd_err r ≠ None ∧ cmd_ExitCode r = exitCodeDifferentDimension
            ∧ acc' = with_dimension acc fileName
            ∧ events (visit P c fileName acc w)
              = staging c fileName st d1 d2 absTmpDir r ++ removed fileName)
         ∨ (cmd_err r ≠ None ∧ cmd_ExitCode r = exitCodeDifferentPixels
            ∧ ∃ dp, newDiffPixel fileName (cmd_out r) = Some dp
                    ∧ acc' = with_pixels acc dp
                    ∧ events (visit P c fileName acc w)
                      = staging c fileName st d1 d2 absTmpDir r
                          ++ [EvRename (diffFile fileName)
                                (diffFileName fileName) None]
                          ++ removed fileName)).
Proof.
  unfold is_png, target_exists. intros H. unfold_program.
  destruct (GoStrings.HasSuffix fileName ".png") eqn:Hpng; simpl in *;
    run_cases.
  all: try match goal with H : IsNotExist _ = _ |- _ => rewrite H end.
  all: simpl.
  all: first
    [ left; done
    | right; left; split_and!; [done..|]; eexists; reflexivity
    | right; right; split_and!; [done|done|reflexivity|]; do 5 eexists;
      first
        [ left; split_and!; [idtac..|reflexivity]; done
        | right; left; split_and!; [idtac..|reflexivity];
            [congruence|by apply Z.eqb_eq|done]
        | right; right; split_and!; [idtac..|eexists; split_and!;
            [idtac..|reflexivity]];
            [congruence|by apply Z.eqb_eq|done|done] ] ].
Qed.

(** An iteration that reaches the comparator: it is for a PNG with a
    counterpart, it starts with the staging of the pair, and it calls the
    comparator once. *)
Lemma visit_invoked c fileName acc w argv r :
  In (EvRun argv r) (events (visit P c fileName acc w)) →
  is_png fileName = true ∧ target_exists P c fileName w = true
  ∧ stdout (visit P c fileName acc w) = [progress c fileName]
  ∧ ∃ st d1 d2 absTmpDir more,
      argv = docker_argv c absTmpDir fileName
      ∧ events (visit P c fileName acc w)
        = staging c fileName st d1 d2 absTmpDir r ++ more
      ∧ Forall (fun e => ¬ is_run e) more.
Proof.
  unfold is_png, target_exists. intros H. unfold_program.
  destruct (GoStrings.HasSuffix fileName ".png") eqn:Hpng; simpl in *;
    run_cases; destruct_or?; simplify_eq; try done.
  all: try match goal with H : IsNotExist _ = _ |- _ => rewrite H end.
  all: split_and!; [done|done|reflexivity|]; do 5 eexists.
  all: split_and!; [reflexivity|reflexivity|].
  all: repeat constructor; simpl; tauto.
Qed.

(** An unexpected answer of the comparator ends the run at once. *)
Lemma visit_unexpected c fileName acc w argv r :
  In (EvRun argv r) (events (visit P c fileName acc w)) →
  unexpected r →
  ∃ st d1 d2 absTmpDir e w',
    argv = docker_argv c absTmpDir fileName
    ∧ cmd_err r = Some e
    ∧ visit P c fileName acc w
      = mkRun (staging c fileName st d1 d2 absTmpDir r)
          [progress c fileName]
          (Fatal ("command execution error: " +:+ e) w').
Proof.
  intros H (Herr & H65 & H66). unfold_program.
  run_cases; destruct_or?; simplify_eq; try done.
  all: eqb_hyps; try done.
  do 6 eexists. split_and!; [reflexivity|eassumption|reflexivity].
Qed.

(** A removal that fails ends the run, and is its last call. *)
Lemma visit_remove_failed c fileName acc w name e :
  In (EvRemove name (Some e)) (events (visit P c fileName acc w)) →
  last (events (visit P c fileName acc w)) = Some (EvRemove name (Some e))
  ∧ ∃ msg w', outcome (visit P c fileName acc w) = Fatal msg w'.
Proof.
  intros H. unfold_program.
  run_cases; destruct_or?; simplify_eq; try done.
  all: split; [reflexivity|eauto].
Qed.


(** A PNG with a counterpart is compared, unless staging it fails. *)
Lemma visit_compares c fileName acc w :
  is_png fileName = true → target_exists P c fileName w = true →
  (∃ absTmpDir r,
     In (EvRun (docker_argv c absTmpDir fileName) r)
       (events (visit P c fileName acc w)))
  ∨ (Forall (fun e => ¬ is_run e) (events (visit P c fileName acc w))
     ∧ ∃ msg w', outcome (visit P c fileName acc w) = Fatal msg w').
Proof.
  unfold is_png, target_exists. intros Hpng H. unfold_program.
  rewrite Hpng. simpl in *. run_cases.
  all: first
    [ left; do 2 eexists; simpl; tauto
    | right; split; [repeat constructor; simpl; tauto|eauto] ].
Qed.

(** Every iteration that reaches the comparator goes on as [classified]
    describes. *)
Lemma visit_classified c fileName acc w argv r :
  In (EvRun argv r) (events (visit P c fileName acc w)) →
  ∃ st d1 d2 absTmpDir more,
    events (visit P c fileName acc w)
    = staging c fileName st d1 d2 absTmpDir r ++ more
    ∧ classified fileName acc r more (outcome (visit P c fileName acc w)).
Proof.
  intros H. unfold_program.
  run_cases; destruct_or?; simplify_eq; try done.
  all: eqb_hyps.
  all: do 5 eexists; (split; [reflexivity|]).
  all: try match goal with
           | H : cmd_err ?r = Some _ |- _ =>
               assert (cmd_err r ≠ None) by congruence
           end.
  all: try match goal with
           | |- context [mkReport (diffDimensions ?a ++ [?f]) _] =>
               change (mkReport (diffDimensions a ++ [f]) (diffPixels a))
                 with (with_dimension a f)
           | |- context [mkReport _ (diffPixels ?a ++ [?dp])] =>
               change (mkReport (diffDimensions a) (diffPixels a ++ [dp]))
                 with (with_pixels a dp)
           end.
  all: eauto 6 using @cleaned, @classified.
Qed.

(** What an iteration prints: nothing, or its progress line. *)
Lemma visit_stdout c fileName acc w :
  stdout (visit P c fileName acc w) = []
  ∨ stdout (visit P c fileName acc w) = [progress c fileName].
Proof.
  unfold_program. run_cases; auto.
Qed.

End Visit.

(** ** The scan *)

Section Scan.
Context {W : Type} (P : Platform W).
Implicit Types (c : config) (acc : report) (w : W).

Lemma events_prepend {A} evs out (r : run W A) :
  events (prepend evs out r) = evs ++ events r.
Proof. by destruct r. Qed.

Lemma stdout_prepend {A} evs out (r : run W A) :
  stdout (prepend evs out r) = out ++ stdout r.
Proof. by destruct r. Qed.

Lemma outcome_prepend {A} evs out (r : run W A) :
  outcome (prepend evs out r) = outcome r.
Proof. by destruct r. Qed.

(** The loop goes on to the next entry exactly when the iteration ends
    normally. *)
Lemma scan_cons c fileName rest acc w :
  scan P c (fileName :: rest) acc w
  = match visit P c fileName acc w with
    | mkRun evs out (Ok acc1 w1) => prepend evs out (scan P c rest acc1 w1)
    | mkRun evs out (Fatal msg w1) => mkRun evs out (Fatal msg w1)
    | mkRun evs out (Panic msg w1) => mkRun evs out (Panic msg w1)
    end.
Proof. reflexivity. Qed.

Lemma moves_app (l1 l2 : list event) : moves (l1 ++ l2) = moves l1 ++ moves l2.
Proof. apply omap_app. Qed.

(** A scan that reaches the end of the listing: what it appended to the two
    lists, the files it compared, what it printed and the moves it made. *)
Lemma scan_Ok c files : ∀ acc w acc' w',
  outcome (scan P c files acc w) = Ok acc' w' →
  ∃ d p compared,
    diffDimensions acc' = diffDimensions acc ++ d
    ∧ diffPixels acc' = diffPixels acc ++ p
    ∧ sublist compared files
    ∧ Forall (fun f => is_png f = true) compared
    ∧ sublist d compared
    ∧ sublist (map file p) compared
    ∧ stdout (scan P c files acc w) = map (progress c) compared
    ∧ moves (events (scan P c files acc w)) = map move_of p.
Proof.
  induction files as [|f rest IH]; intros acc w acc' w' H.
  - simpl in H. simplify_eq. exists [], [], []. simpl.
    rewrite !app_nil_r. split_and!; done.
  - rewrite scan_cons in H |- *.
    pose proof (visit_Ok P c f acc w) as HV.
    destruct (visit P c f acc w) as [evs out [acc1 w1|m w1|m w1]];
      simpl in H; try done.
    rewrite outcome_prepend in H.
    rewrite events_prepend, stdout_prepend, moves_app.
    destruct (IH _ _ _ _ H) as (d & p & cmp & Hd & Hp & Hcmp & Hpng & Hdc
                                & Hpc & Hout & Hmv).
    rewrite Hout, Hmv. clear IH H.
    destruct (HV _ _ eq_refl)
      as [(_ & -> & Heq)|[(_ & _ & -> & st & Heq)
                         |(Hf & _ & Hprog & st & d1 & d2 & a & r & Hr)]];
      clear HV; simpl in *.
    + simplify_eq. exists d, p, cmp. split_and!; try done.
      by apply sublist_cons.
    + simplify_eq. exists d, p, cmp. split_and!; try done.
      by apply sublist_cons.
    + subst out.
      destruct Hr as [(_ & -> & ->)|[(_ & _ & -> & ->)
                                    |(_ & _ & dp & Hdp & -> & ->)]].
      * exists d, p, (f :: cmp). split_and!; try done.
        -- by apply sublist_skip.
        -- by constructor.
        -- by apply sublist_cons.
        -- by apply sublist_cons.
      * exists (f :: d), p, (f :: cmp). simpl in *.
        rewrite <- app_assoc in Hd. split_and!; try done.
        -- by apply sublist_skip.
        -- by constructor.
        -- by apply sublist_skip.
        -- by apply sublist_cons.
      * exists d, (dp :: p), (f :: cmp). simpl in *.
        rewrite <- app_assoc in Hp.
        rewrite (newDiffPixel_file _ _ _ Hdp).
        split_and!; try done.
        -- by apply sublist_skip.
        -- by constructor.
        -- by apply sublist_cons.
        -- by apply sublist_skip.
        -- unfold move_of. by rewrite (newDiffPixel_file _ _ _ Hdp).
Qed.

(** Whatever its end, a scan prints the progress lines of the files it
    compared, and nothing else. *)
Lemma scan_stdout c files : ∀ acc w,
  ∃ compared,
    sublist compared files
    ∧ stdout (scan P c files acc w) = map (progress c) compared.
Proof.
  induction files as [|f rest IH]; intros acc w.
  - exists []. done.
  - rewrite scan_cons.
    pose proof (visit_stdout P c f acc w) as HV.
    destruct (visit P c f acc w) as [evs out [acc1 w1|m w1|m w1]];
      simpl in HV.
    + destruct (IH acc1 w1) as (cmp & Hcmp & Hout).
      rewrite stdout_prepend, Hout.
      destruct HV as [->| ->].
      * exists cmp. split; [by apply sublist_cons|done].
      * exists (f :: cmp). split; [by apply sublist_skip|done].
    + destruct HV as [->| ->].
      * exists []. split; [apply sublist_nil_l|done].
      * exists [f]. split; [apply sublist_skip, sublist_nil_l|done].
    + destruct HV as [->| ->].
      * exists []. split; [apply sublist_nil_l|done].
      * exists [f]. split; [apply sublist_skip, sublist_nil_l|done].
Qed.

(** An unexpected answer of the comparator is the last call of the scan,
    which ends in [log.Fatalf]. *)
Lemma scan_unexpected c files : ∀ acc w argv r,
  In (EvRun argv r) (events (scan P c files acc w)) →
  unexpected r →
  ∃ e w',
    cmd_err r = Some e
    ∧ outcome (scan P c files acc w)
      = Fatal ("command execution error: " +:+ e) w'
    ∧ last (events (scan P c files acc w)) = Some (EvRun argv r).
Proof.
  induction files as [|f rest IH]; intros acc w argv r Hin Hr.
  - destruct Hin.
  - rewrite scan_cons in Hin |- *.
    pose proof (visit_unexpected P c f acc w argv r) as HV.
    destruct (visit P c f acc w) as [evs out [acc1 w1|m w1|m w1]];
      simpl in *.
    + rewrite events_prepend in Hin. apply in_app_or in Hin as [Hin|Hin].
      * destruct (HV Hin Hr) as (? & ? & ? & ? & ? & ? & _ & _ & ?). done.
      * destruct (IH _ _ _ _ Hin Hr) as (e & w' & He & Hout & Hlast).
        exists e, w'. rewrite outcome_prepend, events_prepend.
        split_and!; [done|done|]. by rewrite last_app, Hlast.
    + destruct (HV Hin Hr) as (? & ? & ? & a & e & w' & -> & He & Heq).
      simplify_eq. exists e, w'. split_and!; done.
    + destruct (HV Hin Hr) as (? & ? & ? & ? & ? & ? & _ & _ & ?). done.
Qed.

End Scan.

(** ** Start-up and report *)

Section Main.
Context {W : Type} (P : Platform W).
Implicit Types (c : config) (acc : report) (w : W).

(** [validate] and [checkTmpDir] print nothing and only look up the
    container runtime, inspect paths and create the workspace. *)
Lemma validate_quiet c w :
  stdout (validate P c w) = []
  ∧ Forall startup_call (events (validate P c w)).
Proof.
  unfold_program. run_cases.
  all: split; [done|repeat constructor].
Qed.

Lemma checkTmpDir_quiet w :
  stdout (checkTmpDir P w) = []
  ∧ Forall startup_call (events (checkTmpDir P w)).
Proof.
  unfold_program. run_cases.
  all: split; [done|repeat constructor].
Qed.

Lemma for_each_Println (names : list string) w :
  for_each names (Println (W := W)) w
  = mkRun [] (map (fun name => name +:+ nl) names) (Ok tt w).
Proof.
  revert w. induction names as [|name rest IH]; intros w; [done|].
  change (for_each (name :: rest) Println w)
    with (prepend [] [name +:+ nl] (for_each rest (Println (W := W)) w)).
  rewrite IH. reflexivity.
Qed.

Lemma print_report_text acc w :
  print_report P acc w = mkRun [] (report_text P acc) (Ok tt w).
Proof.
  unfold print_report, report_text, row.
  destruct acc as [[|name names] [|dp dps]];
    cbn [diffDimensions diffPixels length Nat.ltb Nat.leb].
  all: do 3 (unfold bind; simpl; rewrite ?for_each_Println).
  all: rewrite ?app_nil_r; try reflexivity.
Qed.

Lemma startup_call_not_run (evs : list event) argv r :
  Forall startup_call evs → ¬ In (EvRun argv r) evs.
Proof.
  intros Hall Hin. rewrite Forall_forall in Hall.
  apply list_elem_of_In in Hin. exact (Hall _ Hin).
Qed.

(** [main], phase by phase. *)
Lemma main_phases args w :
  main P args w
  = let c := read_args args in
    match validate P c w with
    | mkRun e1 o1 (Ok _ w1) =>
        prepend e1 o1
          match checkTmpDir P w1 with
          | mkRun e2 o2 (Ok _ w2) =>
              prepend e2 o2
                match ioutil_ReadDir P (srcDir c) w2 with
                | (Success files, w3) =>
                    prepend [EvReadDir (srcDir c) (Success files)] []
                      match scan P c files (mkReport [] []) w3 with
                      | mkRun e4 o4 (Ok acc w4) =>
                          prepend e4 o4 (print_report P acc w4)
                      | mkRun e4 o4 (Fatal msg w4) =>
                          mkRun e4 o4 (Fatal msg w4)
                      | mkRun e4 o4 (Panic msg w4) =>
                          mkRun e4 o4 (Panic msg w4)
                      end
                | (Failure err, w3) =>
                    mkRun [EvReadDir (srcDir c) (Failure err)] []
                      (Fatal ("read " +:+ srcDir c +:+ " error: " +:+ err) w3)
                end
          | mkRun e2 o2 (Fatal msg w2) => mkRun e2 o2 (Fatal msg w2)
          | mkRun e2 o2 (Panic msg w2) => mkRun e2 o2 (Panic msg w2)
          end
    | mkRun e1 o1 (Fatal msg w1) => mkRun e1 o1 (Fatal msg w1)
    | mkRun e1 o1 (Panic msg w1) => mkRun e1 o1 (Panic msg w1)
    end.
Proof.
  unfold main, bind at 1. cbv zeta.
  destruct (validate P (read_args args) w) as [e1 o1 [[] w1|m w1|m w1]];
    try reflexivity.
  unfold bind at 1.
  destruct (checkTmpDir P w1) as [e2 o2 [[] w2|m w2|m w2]]; try reflexivity.
  unfold bind at 1, ReadDir, call.
  destruct (ioutil_ReadDir P (srcDir (read_args args)) w2)
    as [[files|err] w3]; reflexivity.
Qed.

(** A run of [main] in which the comparator gives an unexpected answer. *)
Lemma main_unexpected args w argv r :
  In (EvRun argv r) (events (main P args w)) →
  unexpected r →
  ∃ e w',
    cmd_err r = Some e
    ∧ outcome (main P args w)
      = Fatal ("command execution error: " +:+ e) w'
    ∧ last (events (main P args w)) = Some (EvRun argv r)
    ∧ ∃ compared, stdout (main P args w)
                  = map (progress (read_args args)) compared.
Proof.
  rewrite main_phases. cbv zeta. set (c := read_args args). clearbody c.
  intros Hin Hr.
  destruct (validate_quiet c w) as [Ho1 He1].
  destruct (validate P c w) as [e1 o1 [[] w1|m w1|m w1]]; simpl in *;
    try (by apply startup_call_not_run in Hin).
  destruct (checkTmpDir_quiet w1) as [Ho2 He2].
  destruct (checkTmpDir P w1) as [e2 o2 [[] w2|m w2|m w2]]; simpl in *;
    try (apply in_app_or in Hin as [Hin|Hin];
         by apply startup_call_not_run in Hin).
  subst o1 o2.
  destruct (ioutil_ReadDir P (srcDir c) w2) as [[files|err] w3]; simpl in *.
  - pose proof (scan_unexpected P c files (mkReport [] []) w3 argv r) as HS.
    destruct (scan_stdout P c files (mkReport [] []) w3) as (cmp & _ & Hcmp).
    assert (In (EvRun argv r)
              (events (scan P c files (mkReport [] []) w3))) as Hscan.
    { destruct (scan P c files (mkReport [] []) w3)
        as [e4 o4 [acc w4|m w4|m w4]]; simpl in *;
        rewrite ?print_report_text in Hin; simpl in Hin;
        rewrite ?app_nil_r in Hin;
        (apply in_app_or in Hin as [Hin|Hin];
         [by apply startup_call_not_run in Hin|]);
        (apply in_app_or in Hin as [Hin|Hin];
         [by apply startup_call_not_run in Hin|]);
        by destruct Hin as [Hin|Hin]. }
    destruct (HS Hscan Hr) as (e & w' & He & Hout & Hlast).
    destruct (scan P c files (mkReport [] []) w3)
      as [e4 o4 [acc w4|m w4|m w4]]; simpl in *; simplify_eq.
    exists e, w'. split_and!; [done|done| |by exists cmp].
    rewrite !last_app, last_cons, Hlast. done.
  - apply in_app_or in Hin as [Hin|Hin];
      [by apply startup_call_not_run in Hin|].
    apply in_app_or in Hin as [Hin|Hin];
      [by apply startup_call_not_run in Hin|].
    by destruct Hin as [Hin|Hin].
Qed.

(** A run of [main] that reaches its end. *)
Lemma main_Ok args w w' :
  outcome (main P args w) = Ok tt w' →
  ∃ files acc compared,
    In (EvReadDir (srcDir (read_args args)) (Success files))
      (events (main P args w))
    ∧ sublist compared files
    ∧ sublist (diffDimensions acc) compared
    ∧ sublist (map file (diffPixels acc)) compared
    ∧ stdout (main P args w)
      = map (progress (read_args args)) compared ++ report_text P acc.
Proof.
  rewrite main_phases. cbv zeta. set (c := read_args args). clearbody c.
  intros Hout.
  destruct (validate_quiet c w) as [Ho1 He1].
  destruct (validate P c w) as [e1 o1 [[] w1|m w1|m w1]]; simpl in *;
    try done.
  destruct (checkTmpDir_quiet w1) as [Ho2 He2].
  destruct (checkTmpDir P w1) as [e2 o2 [[] w2|m w2|m w2]]; simpl in *;
    try done.
  subst o1 o2.
  destruct (ioutil_ReadDir P (srcDir c) w2) as [[files|err] w3]; simpl in *;
    try done.
  pose proof (scan_Ok P c files (mkReport [] []) w3) as HS.
  destruct (scan P c files (mkReport [] []) w3)
    as [e4 o4 [acc w4|m w4|m w4]]; simpl in *; try done.
  destruct (HS _ _ eq_refl)
    as (d & p & cmp & Hd & Hp & Hcmp & _ & Hdc & Hpc & Hstd & _).
  simpl in *. subst o4.
  rewrite print_report_text in *. simpl in *.
  exists files, acc, cmp. rewrite Hd, Hp.
  split_and!; try done.
  apply in_or_app. right. apply in_or_app. right. by left.
Qed.

End Main.

(** ** The paths of the workspace *)

Section Paths.
Import GoStrings.

(** A plain name joined to the workspace directory is not rewritten by
    [filepath.Clean]. *)
Lemma Join_tmp (x : string) :
  contains filepath.slash x = false →
  x ≠ EmptyString → x ≠ "." → x ≠ ".." →
  filepath.Join [tmpDir; x] = "tmp/" +:+ x.
Proof.
  intros Hs H0 H1 H2.
  apply String.eqb_neq in H0, H1, H2.
  change (filepath.Join [tmpDir; x])
    with (filepath.Clean ("tmp" +:+ String filepath.slash x)).
  unfold filepath.Clean.
  rewrite (Split_field "tmp" x filepath.slash eq_refl).
  rewrite (Split_whole x _ Hs).
  change (HasPrefix ("tmp" +:+ String filepath.slash x) "/") with false.
  cbn [fold_left].
  change (filepath.clean_step false [] "tmp") with ["tmp"].
  unfold filepath.clean_step. rewrite H0, H1, H2. reflexivity.
Qed.

(** For a file name without separator, as [ioutil.ReadDir] returns them,
    the staged copies and the transient diff are files of [tmp]. *)
Lemma workspace_paths (fileName : string) :
  contains filepath.slash fileName = false →
  tmpSrcFile fileName = "tmp/src-" +:+ fileName
  ∧ tmpTargetFile fileName = "tmp/target-" +:+ fileName
  ∧ diffFile fileName = "tmp/diff-" +:+ fileName.
Proof.
  intros Hs. unfold tmpSrcFile, tmpTargetFile, diffFile, diffFileName.
  split_and!; apply Join_tmp;
    try (rewrite contains_app, Hs; reflexivity);
    cbv [String.append]; discriminate.
Qed.

End Paths.

(** ** Staging and listing, for the claims *)

Section Staged.
Context {W : Type} (P : Platform W).
Implicit Types (c : config) (acc : report) (w : W).



Lemma list_source_quiet c w : stdout (list_source P c w) = [].
Proof.
  unfold list_source, bind.
  destruct (validate_quiet P c w) as [Ho1 _].
  destruct (validate P c w) as [e1 o1 [[] w1|m w1|m w1]]; simpl in *;
    try done.
  destruct (checkTmpDir_quiet P w1) as [Ho2 _].
  destruct (checkTmpDir P w1) as [e2 o2 [[] w2|m w2|m w2]]; simpl in *;
    subst; try done.
  unfold ReadDir, call.
  destruct (ioutil_ReadDir P (srcDir c) w2) as [[files|err] w3]; done.
Qed.

(** [main] is the listing of the source directory, the scan of the
    listing and the report of what the scan accumulated. *)
Lemma main_after_listing args w :
  main P args w
  = match list_source P (read_args args) w with
    | mkRun e o (Ok files w3) =>
        prepend e o
          match scan P (read_args args) files (mkReport [] []) w3 with
          | mkRun e4 o4 (Ok acc w4) => prepend e4 o4 (print_report P acc w4)
          | mkRun e4 o4 (Fatal msg w4) => mkRun e4 o4 (Fatal msg w4)
          | mkRun e4 o4 (Panic msg w4) => mkRun e4 o4 (Panic msg w4)
          end
    | mkRun e o (Fatal msg w3) => mkRun e o (Fatal msg w3)
    | mkRun e o (Panic msg w3) => mkRun e o (Panic msg w3)
    end.
Proof.
  rewrite main_phases. cbv zeta. unfold list_source, bind.
  destruct (validate P (read_args args) w) as [e1 o1 [[] w1|m w1|m w1]];
    try reflexivity.
  destruct (checkTmpDir P w1) as [e2 o2 [[] w2|m w2|m w2]]; try reflexivity.
  unfold ReadDir, call.
  destruct (ioutil_ReadDir P (srcDir (read_args args)) w2)
    as [[files|err] w3]; simpl; [|reflexivity].
  destruct (scan P (read_args args) files (mkReport [] []) w3)
    as [e4 o4 [acc w4|m w4|m w4]]; simpl.
  - destruct (print_report P acc w4) as [e5 o5 res]. simpl.
    by rewrite <- !app_assoc.
  - by rewrite <- !app_assoc.
  - by rewrite <- !app_assoc.
Qed.

(** A listing that succeeds is the last call before the loop. *)
Lemma list_source_Ok c w files w3 :
  outcome (list_source P c w) = Ok files w3 →
  last (events (list_source P c w))
  = Some (EvReadDir (srcDir c) (Success files)).
Proof.
  unfold list_source, bind.
  destruct (validate P c w) as [e1 o1 [[] w1|m w1|m w1]]; simpl;
    try done.
  destruct (checkTmpDir P w1) as [e2 o2 [[] w2|m w2|m w2]]; simpl;
    try done.
  unfold ReadDir, call.
  destruct (ioutil_ReadDir P (srcDir c) w2) as [[files'|err] w3']; simpl;
    try done.
  intros ?; simplify_eq. by rewrite !last_app.
Qed.

End Staged.

(** ** The claims of the specification *)

(** C1. The target directory is read from the second positional argument,
    the one the source directory is read from, and not from the third: with
    the arguments 0.02, before, after it is before. *)
Theorem target_dir_read_from_second_argument :
  (∀ t s x : string,
     targetDir (read_args [t; s; x])
     = if String.eqb s EmptyString then defaultTargetDir else s)
  ∧ read_args ["0.02"; "before"; "after"]
    = {| threshold := "0.02"; srcDir := "before"; targetDir := "before" |}.
Proof. split; [intros t s x|]; reflexivity. Qed.

Section Claims.
Context {W : Type} (P : Platform W).
Implicit Types (c : config) (acc : report) (w : W).

(** C2, amended. Once the comparator has run for a file: on every branch
    after which the scan goes on, the last two calls of the iteration are
    the successful removals of both staged copies; a removal that fails
    ends the run in [log.Fatalf]; and when the comparator did not start or
    exited with a status other than 0, 65 and 66, the run ends in
    [log.Fatalf] without any removal. For a file name without separator
    the staged copies are [tmp/src-] and [tmp/target-] followed by the
    name. *)
Theorem staged_copies_removed_unless_fatal c fileName acc w argv r :
  In (EvRun argv r) (events (visit P c fileName acc w)) →
  (∀ acc' w', outcome (visit P c fileName acc w) = Ok acc' w' →
     ∃ before, events (visit P c fileName acc w) = before ++ removed fileName
               ∧ In (EvRun argv r) before)
  ∧ (∀ name e,
       In (EvRemove name (Some e)) (events (visit P c fileName acc w)) →
       ∃ msg w', outcome (visit P c fileName acc w) = Fatal msg w')
  ∧ (unexpected r →
       Forall (fun e => ¬ is_remove e) (events (visit P c fileName acc w))
       ∧ ∃ msg w', outcome (visit P c fileName acc w) = Fatal msg w')
  ∧ (GoStrings.contains filepath.slash fileName = false →
     removed fileName
     = [ EvRemove ("tmp/src-" +:+ fileName) None;
         EvRemove ("tmp/target-" +:+ fileName) None ]).
Proof.
  intros Hin. split_and!;
    [| | |intros Hs; unfold removed;
          destruct (workspace_paths fileName Hs) as (-> & -> & _); done].
  - intros acc' w' Hout.
    destruct (visit_invoked P _ _ _ _ _ _ Hin)
      as (_ & _ & _ & st0 & d10 & d20 & a0 & more0 & -> & _).
    destruct (visit_classified P _ _ _ _ _ _ Hin)
      as (st & d1 & d2 & a & more & Hev & Hcl).
    rewrite Hev, Hout in *. clear Hev Hout.
    assert (In (EvRun (docker_argv c a0 fileName) r)
              (staging c fileName st d1 d2 a r)) as Hrun.
    { apply in_app_or in Hin as [Hin|Hin]; [done|].
      inversion Hcl; subst;
        repeat match goal with
               | H : cleaned _ _ _ _ |- _ => inversion H; subst; clear H
               end;
        simpl in Hin; destruct_or?; simplify_eq; done. }
    inversion Hcl; subst;
      match goal with
      | H : cleaned _ _ _ _ |- _ => inversion H; subst; clear H
      end.
    + exists (staging c fileName st d1 d2 a r
              ++ [EvRemove (diffFile fileName) None]).
      rewrite <- app_assoc. split; [done|]. apply in_or_app. by left.
    + exists (staging c fileName st d1 d2 a r). done.
    + exists (staging c fileName st d1 d2 a r
              ++ [EvRename (diffFile fileName) (diffFileName fileName) None]).
      rewrite <- app_assoc. split; [done|]. apply in_or_app. by left.
  - intros name e Hrm. by destruct (visit_remove_failed P _ _ _ _ _ _ Hrm).
  - intros Hr.
    destruct (visit_unexpected P _ _ _ _ _ _ Hin Hr)
      as (st & d1 & d2 & a & e & w' & _ & _ & ->).
    simpl. split; [|eauto]. repeat constructor; simpl; tauto.
Qed.

(** C3, amended. When the comparator exits 0, the next call removes the
    file at the transient diff path. If that succeeds, the staged copies
    are removed in turn and the scan goes on to the next entry with both
    lists unchanged; if it fails, as it does when no diff image was
    written, the run ends in [log.Fatalf] with a file remove error. *)
Theorem identical_removes_diff_or_aborts c fileName acc w argv r :
  In (EvRun argv r) (events (visit P c fileName acc w)) →
  cmd_err r = None →
  (∃ st d1 d2 absTmpDir err more,
     events (visit P c fileName acc w)
     = staging c fileName st d1 d2 absTmpDir r
         ++ EvRemove (diffFile fileName) err :: more
     ∧ match err with
       | None => cleaned fileName acc more (outcome (visit P c fileName acc w))
       | Some e =>
           more = []
           ∧ ∃ w', outcome (visit P c fileName acc w)
                   = Fatal ("file remove error: " +:+ e) w'
       end)
  ∧ (∀ rest acc' w',
       outcome (visit P c fileName acc w) = Ok acc' w' →
       acc' = acc
       ∧ scan P c (fileName :: rest) acc w
         = prepend (events (visit P c fileName acc w))
             (stdout (visit P c fileName acc w)) (scan P c rest acc w')).
Proof.
  intros Hin Hr.
  destruct (visit_classified P _ _ _ _ _ _ Hin)
    as (st & d1 & d2 & a & more & Hev & Hcl).
  split.
  - exists st, d1, d2, a.
    inversion Hcl; subst; try congruence.
    + exists None, more0. eauto.
    + exists (Some e), []. eauto.
  - intros rest acc' w' Hout. rewrite scan_cons.
    rewrite Hout in Hcl.
    assert (acc' = acc) as ->.
    { inversion Hcl; subst; try congruence.
      match goal with
      | H : cleaned _ _ _ _ |- _ => by inversion H
      end. }
    split; [done|].
    destruct (visit P c fileName acc w) as [evs out res]. simpl in *.
    by subst res.
Qed.



(** C8. If the threshold does not parse as a floating-point number, the
    program ends in [log.Fatal] with exit status 1 having only looked up
    the container runtime: it has printed nothing, read no directory and
    run no comparator. The check is on parseability alone: [validate]
    behaves the same for any two thresholds that parse. *)
Theorem unparsable_threshold_aborts :
  (∀ args w e,
     strconv_ParseFloat P (threshold (read_args args)) 32 = Some e →
     exit_status (main P args w) = 1
     ∧ stdout (main P args w) = []
     ∧ Forall (fun ev => ¬ is_scan ev ∧ ¬ is_run ev)
         (events (main P args w))
     ∧ ∃ err, events (main P args w) = [EvLookPath "docker" err])
  ∧ (∀ c1 c2 w,
       srcDir c1 = srcDir c2 → targetDir c1 = targetDir c2 →
       strconv_ParseFloat P (threshold c1) 32 = None →
       strconv_ParseFloat P (threshold c2) 32 = None →
       validate P c1 w = validate P c2 w).
Proof.
  split.
  - intros args w e He. rewrite main_phases. cbv zeta.
    set (c := read_args args) in *. clearbody c.
    unfold validate, fatal_if. rewrite He. unfold_program. run_cases.
    all: unfold exit_status; simpl.
    all: split_and!; [done|done|repeat constructor; simpl; tauto|eauto].
  - intros [t1 s1 d1] [t2 s2 d2] w; simpl. intros -> -> H1 H2.
    unfold validate. simpl. by rewrite H1, H2.
Qed.

(** C9. When the comparator fails to start or exits with a status other
    than 0, 65 and 66, the run ends at once in [log.Fatalf] with exit
    status 1: the answer is the last call of the run, there is no report,
    and standard output holds progress lines only. *)
Theorem unexpected_answer_aborts_run args w argv r :
  In (EvRun argv r) (events (main P args w)) →
  unexpected r →
  ∃ e w',
    cmd_err r = Some e
    ∧ outcome (main P args w) = Fatal ("command execution error: " +:+ e) w'
    ∧ exit_status (main P args w) = 1
    ∧ last (events (main P args w)) = Some (EvRun argv r)
    ∧ ∃ compared,
        stdout (main P args w) = map (progress (read_args args)) compared.
Proof.
  intros Hin Hr.
  destruct (main_unexpected P args w argv r Hin Hr)
    as (e & w' & He & Hout & Hlast & Hstd).
  exists e, w'. unfold exit_status. rewrite Hout. done.
Qed.

(** C10. The report is the section of the dimension mismatches, present
    exactly when that list is not empty, followed by the section of the
    pixel mismatches, present exactly when that list is not empty; with
    both lists empty it is empty. When the source directory is listed and
    the scan of the listing reaches its end, [main] ends normally and
    what it has printed is what the scan printed, the progress lines of
    the compared files, followed by the report of the two lists the scan
    accumulated, which are in the order of the listing; and [main] ends
    normally in no other way. *)
Theorem report_printed_after_scan :
  (∀ acc w, print_report P acc w = mkRun [] (report_text P acc) (Ok tt w))
  ∧ (∀ acc, report_text P acc = []
            ↔ diffDimensions acc = [] ∧ diffPixels acc = [])
  ∧ (∀ args w files w3 acc w4,
       outcome (list_source P (read_args args) w) = Ok files w3 →
       outcome (scan P (read_args args) files (mkReport [] []) w3)
       = Ok acc w4 →
       outcome (main P args w) = Ok tt w4
       ∧ stdout (main P args w)
         = stdout (scan P (read_args args) files (mkReport [] []) w3)
             ++ report_text P acc
       ∧ In (EvReadDir (srcDir (read_args args)) (Success files))
           (events (main P args w))
       ∧ ∃ compared,
           sublist compared files
           ∧ stdout (scan P (read_args args) files (mkReport [] []) w3)
             = map (progress (read_args args)) compared
           ∧ sublist (diffDimensions acc) compared
           ∧ sublist (map file (diffPixels acc)) compared)
  ∧ (∀ args w w',
       outcome (main P args w) = Ok tt w' →
       ∃ files w3 acc,
         outcome (list_source P (read_args args) w) = Ok files w3
         ∧ outcome (scan P (read_args args) files (mkReport [] []) w3)
           = Ok acc w').
Proof.
  split_and!.
  - apply print_report_text.
  - intros [[|name names] [|dp dps]]; unfold report_text; simpl;
      split; try done; intros [? ?]; done.
  - intros args w files w3 acc w4 Hls Hscan.
    rewrite main_after_listing.
    pose proof (list_source_quiet P (read_args args) w) as Hquiet.
    pose proof (list_source_Ok P _ _ _ _ Hls) as Hlast.
    destruct (scan_Ok P _ _ _ _ _ _ Hscan)
      as (d & p & cmp & Hd & Hp & Hcmp & _ & Hdc & Hpc & Hstd & _).
    destruct (list_source P (read_args args) w) as [e o res].
    simpl in *. subst res o.
    destruct (scan P (read_args args) files (mkReport [] []) w3)
      as [e4 o4 res4].
    simpl in *. subst res4. rewrite print_report_text. simpl.
    rewrite app_nil_r. split_and!; [done|done| |].
    + apply in_or_app. left.
      destruct e as [|e0 e] using rev_ind; [done|].
      rewrite last_snoc in Hlast. simplify_eq.
      apply in_or_app. right. by left.
    + exists cmp. rewrite Hd, Hp. done.
  - intros args w w'. rewrite main_after_listing.
    destruct (list_source P (read_args args) w)
      as [e o [files w3|m w3|m w3]]; simpl; try done.
    destruct (scan P (read_args args) files (mkReport [] []) w3)
      as [e4 o4 [acc w4|m w4|m w4]] eqn:Hscan; simpl; try done.
    rewrite print_report_text. simpl. intros ?; simplify_eq.
    exists files, w3, acc. by rewrite Hscan.
Qed.

End Claims.

(** ** The claims on the reference platform *)

Section Instances.
Import RefOS Examples Runs.

Example full_run_output :
  stdout full_run
  = [ "check src/a.png" +:+ nl; "check src/c.png" +:+ nl;
      "check src/d.png" +:+ nl;
      "-- dimensions do not match --" +:+ nl; "c.png" +:+ nl;
      "-- Different pixels are found --" +:+ nl;
      "a.png" +:+ tab +:+ "1234" +:+ tab +:+ "0.042%" +:+ nl ]
  ∧ exit_status full_run = 0
  ∧ files (final_world full_run) !! "diff-a.png" = Some (File "diff")
  ∧ entries (files (final_world full_run)) "tmp" = [].
Proof. vm_compute. done. Qed.

Example report_sample :
  report_text (platform pixelmatch)
    {| diffDimensions := ["x.png"];
       diffPixels := [ {| file := "y.png"; pixels := "500";
                          error := "0.03" |} ] |}
  = [ "-- dimensions do not match --" +:+ nl; "x.png" +:+ nl;
      "-- Different pixels are found --" +:+ nl;
      "y.png" +:+ tab +:+ "500" +:+ tab +:+ "0.03" +:+ nl ].
Proof. vm_compute. reflexivity. Qed.

(** C2 as stated fails: the container exits with status 1 for [a.png]; the
    run ends in [log.Fatalf] without a removal, and both staged copies are
    still in the workspace. *)
Lemma unexpected_answer_leaves_staged_copies :
  In (EvRun (argv_of "a.png") answer_broken)
    (events (visit_with broken "a.png"))
  ∧ outcome (visit_with broken "a.png")
    = Fatal "command execution error: exit status 1"
        (final_world (visit_with broken "a.png"))
  ∧ Forall (fun e => ¬ is_remove e) (events (visit_with broken "a.png"))
  ∧ files (final_world (visit_with broken "a.png")) !! "tmp/src-a.png"
    = Some (File "AAAA")
  ∧ files (final_world (visit_with broken "a.png")) !! "tmp/target-a.png"
    = Some (File "AAAB").
Proof.
  split_and!.
  - vm_compute. in_list.
  - vm_compute. reflexivity.
  - vm_compute. repeat constructor; tauto.
  - vm_compute. reflexivity.
  - vm_compute. reflexivity.
Qed.

Lemma staged_copies_removed_unless_fatal_witness :
  In (EvRun (argv_of "a.png") answer_differs)
    (events (visit_with pixelmatch "a.png"))
  ∧ ∀ acc' w',
      outcome (visit_with pixelmatch "a.png") = Ok acc' w' →
      ∃ before,
        events (visit_with pixelmatch "a.png") = before ++ removed "a.png"
        ∧ In (EvRun (argv_of "a.png") answer_differs) before.
Proof.
  assert (In (EvRun (argv_of "a.png") answer_differs)
            (events (visit_with pixelmatch "a.png"))) as Hin
    by (vm_compute; in_list).
  split; [exact Hin|].
  exact (proj1 (staged_copies_removed_unless_fatal (platform pixelmatch)
                  defaults "a.png" empty_report shots _ _ Hin)).
Defined.

(** C3 as stated fails: the container exits 0 for [d.png] without writing
    a diff image; the removal of the transient diff path fails, the run
    ends in [log.Fatalf], and the next entry is not looked at. *)
Lemma silent_success_aborts_scan :
  In (EvRun (argv_of "d.png") answer_silent) (events silent_scan)
  ∧ cmd_err answer_silent = None
  ∧ cmd_ExitCode answer_silent = 0
  ∧ outcome silent_scan
    = Fatal ("file remove error: "
             +:+ "remove tmp/diff-d.png: no such file or directory")
        (final_world silent_scan)
  ∧ exit_status silent_scan = 1
  ∧ events silent_scan = events (visit_with silent "d.png").
Proof.
  split_and!.
  - vm_compute. in_list.
  - reflexivity.
  - reflexivity.
  - vm_compute. reflexivity.
  - vm_compute. reflexivity.
  - vm_compute. reflexivity.
Qed.

Lemma identical_removes_diff_or_aborts_witness :
  In (EvRun (argv_of "d.png") answer_same)
    (events (visit_with pixelmatch "d.png"))
  ∧ cmd_err answer_same = None
  ∧ ∀ rest acc' w',
      outcome (visit_with pixelmatch "d.png") = Ok acc' w' →
      acc' = empty_report
      ∧ scan (platform pixelmatch) defaults ("d.png" :: rest) empty_report
          shots
        = prepend (events (visit_with pixelmatch "d.png"))
            (stdout (visit_with pixelmatch "d.png"))
            (scan (platform pixelmatch) defaults rest empty_report w').
Proof.
  assert (In (EvRun (argv_of "d.png") answer_same)
            (events (visit_with pixelmatch "d.png"))) as Hin
    by (vm_compute; in_list).
  split_and!; [exact Hin|reflexivity|].
  exact (proj2 (identical_removes_diff_or_aborts (platform pixelmatch)
                  defaults "d.png" empty_report shots _ _ Hin eq_refl)).
Defined.




Lemma unparsable_threshold_aborts_witness :
  strconv_ParseFloat (platform pixelmatch)
    (threshold (read_args ["not-a-number"])) 32
  = Some "strconv.ParseFloat: parsing not-a-number: invalid syntax"
  ∧ exit_status (main (platform pixelmatch) ["not-a-number"] shots) = 1
  ∧ stdout (main (platform pixelmatch) ["not-a-number"] shots) = []
  ∧ Forall (fun ev => ¬ is_scan ev ∧ ¬ is_run ev)
      (events (main (platform pixelmatch) ["not-a-number"] shots))
  ∧ ∃ err, events (main (platform pixelmatch) ["not-a-number"] shots)
           = [EvLookPath "docker" err].
Proof.
  assert (strconv_ParseFloat (platform pixelmatch)
            (threshold (read_args ["not-a-number"])) 32
          = Some "strconv.ParseFloat: parsing not-a-number: invalid syntax")
    as Hparse by (vm_compute; reflexivity).
  split; [exact Hparse|].
  exact (proj1 (unparsable_threshold_aborts (platform pixelmatch))
           ["not-a-number"] shots _ Hparse).
Defined.

(** A threshold outside the unit interval passes [validate]. *)
Example threshold_range_not_checked :
  outcome (validate (platform pixelmatch) (read_args ["7"]) shots)
  = Ok tt shots.
Proof. vm_compute. reflexivity. Qed.

Lemma unexpected_answer_aborts_run_witness :
  In (EvRun (argv_of "a.png") answer_broken) (events broken_run)
  ∧ unexpected answer_broken
  ∧ ∃ e w',
      cmd_err answer_broken = Some e
      ∧ outcome broken_run = Fatal ("command execution error: " +:+ e) w'
      ∧ exit_status broken_run = 1
      ∧ last (events broken_run)
        = Some (EvRun (argv_of "a.png") answer_broken)
      ∧ ∃ compared,
          stdout broken_run = map (progress (read_args [])) compared.
Proof.
  assert (In (EvRun (argv_of "a.png") answer_broken) (events broken_run))
    as Hin by (vm_compute; in_list).
  assert (unexpected answer_broken) as Hr
    by (split_and!; vm_compute; discriminate).
  split_and!; [exact Hin|exact Hr|].
  exact (unexpected_answer_aborts_run (platform broken) [] shots _ _ Hin Hr).
Defined.

Lemma report_printed_after_scan_witness :
  (outcome (list_source (platform pixelmatch) (read_args []) shots)
   = Ok listing shots
   ∧ outcome (scan (platform pixelmatch) (read_args []) listing
                (mkReport [] []) shots)
     = Ok {| diffDimensions := ["c.png"]; diffPixels := [a_record] |}
         (final_world full_run))
  ∧ outcome full_run = Ok tt (final_world full_run)
  ∧ stdout full_run
    = stdout (scan (platform pixelmatch) (read_args []) listing
                (mkReport [] []) shots)
        ++ report_text (platform pixelmatch)
             {| diffDimensions := ["c.png"]; diffPixels := [a_record] |}.
Proof.
  assert (outcome (list_source (platform pixelmatch) (read_args []) shots)
          = Ok listing shots) as Hls by (vm_compute; reflexivity).
  assert (outcome (scan (platform pixelmatch) (read_args []) listing
                     (mkReport [] []) shots)
          = Ok {| diffDimensions := ["c.png"]; diffPixels := [a_record] |}
              (final_world full_run)) as Hscan
    by (vm_compute; reflexivity).
  split; [exact (conj Hls Hscan)|].
  pose proof (proj1 (proj2 (proj2 (report_printed_after_scan
                                     (platform pixelmatch))))
                [] shots _ _ _ _ Hls Hscan) as H.
  exact (conj (proj1 H) (proj1 (proj2 H))).
Defined.

End Instances.

(** ** Further properties: arguments and start-up *)

(** X1. Whatever the arguments, no field of the configuration is empty,
    and the configuration depends on the first two positional arguments
    only. *)
Theorem read_args_fields (args : list string) :
  threshold (read_args args) ≠ EmptyString
  ∧ srcDir (read_args args) ≠ EmptyString
  ∧ targetDir (read_args args) ≠ EmptyString
  ∧ read_args args = read_args (take 2 args).
Proof.
  unfold read_args. split_and!; simpl.
  - destruct (String.eqb (flag_Arg args 0) EmptyString) eqn:H; [done|].
    by apply String.eqb_neq.
  - destruct (String.eqb (flag_Arg args 1) EmptyString) eqn:H; [done|].
    by apply String.eqb_neq.
  - destruct (String.eqb (flag_Arg args 1) EmptyString) eqn:H; [done|].
    by apply String.eqb_neq.
  - by destruct args as [|t [|s rest]].
Qed.

Section Startup.
Context {W : Type} (P : Platform W).
Implicit Types (c : config) (w : W).

(** X2. [validate] succeeds exactly when the container runtime is found,
    the threshold parses, and [os.Stat] finds a directory at the source
    path and then at the target path, in this order; it makes no other
    call, and it never panics. *)
Theorem validate_succeeds_iff c w :
  ((∃ w', outcome (validate P c w) = Ok tt w')
   ↔ strconv_ParseFloat P (threshold c) 32 = None
     ∧ events (validate P c w)
       = [ EvLookPath "docker" None;
           EvStat (srcDir c) (StatInfo true);
           EvStat (targetDir c) (StatInfo true) ])
  ∧ (∀ msg w', outcome (validate P c w) ≠ Panic msg w').
Proof.
  unfold_program.
  destruct (strconv_ParseFloat P (threshold c) 32) eqn:Hparse;
    run_cases;
    repeat match goal with b : bool |- _ => destruct b end;
    simpl in *; try done; (split; [split|]).
  all: try (intros [w' ?]; done).
  all: try (intros [? ?]; done).
  all: try (intros ? ? ?; done).
  all: intros _; eauto.
Qed.

(** X3. When [validate] does not succeed, [main] ends in [log.Fatal] with
    exit status 1 right there: its calls are those of [validate], lookups
    of the runtime and of the two directories, so the workspace is not
    created and no directory is listed, and nothing is printed. *)
Theorem failed_validation_stops_main args w :
  (∀ w', outcome (validate P (read_args args) w) ≠ Ok tt w') →
  exit_status (main P args w) = 1
  ∧ stdout (main P args w) = []
  ∧ events (main P args w) = events (validate P (read_args args) w)
  ∧ Forall (fun e => writes_to e = [] ∧ ¬ is_scan e ∧ ¬ is_run e)
      (events (main P args w)).
Proof.
  rewrite main_phases. cbv zeta. set (c := read_args args). clearbody c.
  intros Hfail.
  assert (Forall (fun e => writes_to e = [] ∧ ¬ is_scan e ∧ ¬ is_run e)
            (events (validate P c w))) as Hev.
  { clear Hfail. unfold_program. run_cases.
    all: repeat constructor; simpl; tauto. }
  destruct (validate_quiet P c w) as [Hout _].
  pose proof (proj2 (validate_succeeds_iff c w)) as Hpanic.
  destruct (validate P c w) as [e1 o1 [[] w1|m w1|m w1]]; simpl in *.
  - by destruct (Hfail w1).
  - done.
  - by destruct (Hpanic m w1).
Qed.

(** X4. [checkTmpDir] succeeds in two ways only: [os.Stat] finds a
    directory at [tmp], or reports it missing and [os.Mkdir] creates it
    with mode 0755. A file at [tmp] ends the run in [log.Fatalf]; when
    [os.Stat] fails for another reason than absence, the nil [FileInfo]
    is dereferenced and the run panics. *)
Theorem checkTmpDir_outcomes w :
  (∀ w', outcome (checkTmpDir P w) = Ok tt w' →
     events (checkTmpDir P w) = [EvStat tmpDir (StatInfo true)]
     ∨ ∃ e, events (checkTmpDir P w)
            = [ EvStat tmpDir (StatError true e); EvMkdir tmpDir 493 None ])
  ∧ ((os_Stat P tmpDir w).1 = StatInfo false →
     ∃ w', checkTmpDir P w
           = mkRun [EvStat tmpDir (StatInfo false)] []
               (Fatal "tmp is not directory" w'))
  ∧ (∀ e, (os_Stat P tmpDir w).1 = StatError false e →
          ∃ w', checkTmpDir P w
                = mkRun [EvStat tmpDir (StatError false e)] []
                    (Panic "invalid memory address or nil pointer dereference"
                       w')).
Proof.
  unfold_program. split_and!.
  - intros w' H. run_cases.
    + destruct a as [|[] e]; simplify_eq/=. eauto.
    + destruct isDir; simplify_eq/=. eauto.
  - intros H. run_cases; simplify_eq/=; eauto.
  - intros e H. run_cases; simplify_eq/=; eauto.
Qed.

End Startup.

(** ** Further properties: one iteration *)

Section Iteration.
Context {W : Type} (P : Platform W).
Implicit Types (c : config) (acc : report) (w : W).

(** X5. Every file an iteration writes is a byte-for-byte copy made with
    mode 0644: what is written to the staged source copy is what was read
    from the source file, and what is written to the staged target copy
    is what was read from the target file. *)
Theorem staged_copies_are_exact c fileName acc w p data perm err :
  In (EvWriteFile p data perm err) (events (visit P c fileName acc w)) →
  perm = 420
  ∧ ((p = tmpSrcFile fileName
      ∧ In (EvReadFile (srcFile c fileName) (Success data))
          (events (visit P c fileName acc w)))
     ∨ (p = tmpTargetFile fileName
        ∧ In (EvReadFile (targetFile c fileName) (Success data))
            (events (visit P c fileName acc w)))).
Proof.
  intros H. unfold_program.
  run_cases; destruct_or?; simplify_eq; try done.
  all: split; [done|].
  all: first [ left; split; [done|simpl; tauto]
             | right; split; [done|simpl; tauto] ].
Qed.

(** X6. A failure while staging a pair (a file that cannot be read, a
    copy that cannot be written, a workspace without absolute path) is
    the last call of the run, which ends in [log.Fatalf]: the comparator
    is not run and nothing is removed, so a copy already staged stays in
    the workspace. *)
Theorem staging_failure_is_fatal c fileName acc w e :
  In e (events (visit P c fileName acc w)) →
  staging_failure e →
  last (events (visit P c fileName acc w)) = Some e
  ∧ (∃ msg w', outcome (visit P c fileName acc w) = Fatal msg w')
  ∧ Forall (fun e' => ¬ is_run e' ∧ ¬ is_remove e')
      (events (visit P c fileName acc w)).
Proof.
  intros H He. unfold_program.
  run_cases; destruct_or?; simplify_eq; try done.
  all: split_and!; [reflexivity|eauto|repeat constructor; simpl; tauto].
Qed.

(** X7. When the comparator exits 65, its output is not read and the
    diff path is not touched: the only calls that follow are the removals
    of the staged copies, and when both succeed the scan goes on with the
    file name appended to the dimension mismatches and the pixel
    mismatches unchanged. *)
Theorem dimension_mismatch_recorded c fileName acc w argv r :
  In (EvRun argv r) (events (visit P c fileName acc w)) →
  cmd_err r ≠ None →
  cmd_ExitCode r = exitCodeDifferentDimension →
  ∃ st d1 d2 absTmpDir more,
    events (visit P c fileName acc w)
    = staging c fileName st d1 d2 absTmpDir r ++ more
    ∧ cleaned fileName (with_dimension acc fileName) more
        (outcome (visit P c fileName acc w)).
Proof.
  intros Hin Herr Hcode.
  destruct (visit_classified P _ _ _ _ _ _ Hin)
    as (st & d1 & d2 & a & more & Hev & Hcl).
  exists st, d1, d2, a, more. split; [done|].
  inversion Hcl; subst;
    unfold exitCodeDifferentDimension, exitCodeDifferentPixels in *;
    try congruence; done.
Qed.

(** X8. When the comparator exits 66 and its output cannot be parsed,
    the run panics (exit status 2) right after the comparator: the diff
    image is not moved, the staged copies are not removed, and no record
    is kept. *)
Theorem unparsable_mismatch_panics c fileName acc w argv r :
  In (EvRun argv r) (events (visit P c fileName acc w)) →
  cmd_err r ≠ None →
  cmd_ExitCode r = exitCodeDifferentPixels →
  newDiffPixel fileName (cmd_out r) = None →
  exit_status (visit P c fileName acc w) = 2
  ∧ ∃ st d1 d2 absTmpDir w',
      visit P c fileName acc w
      = mkRun (staging c fileName st d1 d2 absTmpDir r)
          [progress c fileName] (Panic "index out of range" w').
Proof.
  intros Hin Herr Hcode Hparse.
  destruct (visit_invoked P _ _ _ _ _ _ Hin) as (_ & _ & Hout & _).
  destruct (visit_classified P _ _ _ _ _ _ Hin)
    as (st & d1 & d2 & a & more & Hev & Hcl).
  unfold exit_status.
  destruct (visit P c fileName acc w) as [evs out res]. simpl in *.
  inversion Hcl; subst;
    unfold exitCodeDifferentDimension, exitCodeDifferentPixels in *;
    try congruence.
  split; [done|]. by exists st, d1, d2, a, w0.
Qed.

(** X9. An [os.Stat] error other than absence does not pass the entry
    over: a PNG whose counterpart cannot be inspected is staged like one
    whose counterpart exists, starting with the read of the source
    file. *)
Theorem stat_error_is_not_absence c fileName acc w e :
  is_png fileName = true →
  (os_Stat P (targetFile c fileName) w).1 = StatError false e →
  ∃ r more,
    events (visit P c fileName acc w)
    = EvStat (targetFile c fileName) (StatError false e)
        :: EvReadFile (srcFile c fileName) r :: more.
Proof.
  unfold is_png. intros Hpng H. unfold_program. rewrite Hpng. simpl.
  run_cases; simplify_eq/=; eauto.
Qed.

End Iteration.

(** ** Further properties: the workspace paths *)

Section PathsApart.
Import GoStrings.

Lemma paths_of_plain (fileName : string) :
  plain fileName →
  paths_of fileName
  = [ "tmp/src-" +:+ fileName; "tmp/target-" +:+ fileName;
      "tmp/diff-" +:+ fileName; "diff-" +:+ fileName ].
Proof.
  intros Hs. unfold paths_of, diffFileName.
  by destruct (workspace_paths fileName Hs) as (-> & -> & ->).
Qed.

(** X10. For file names without separator, the two staged copies, the
    transient diff and the stable diff of a file are four different
    paths, and the paths of two different files have nothing in common:
    no iteration overwrites or removes what belongs to another file, and
    cleaning the workspace never removes a stable diff. *)
Theorem workspace_paths_apart (f g : string) :
  plain f → plain g →
  NoDup (paths_of f)
  ∧ (f ≠ g → ∀ p, In p (paths_of f) → ¬ In p (paths_of g)).
Proof.
  intros Hf Hg. rewrite (paths_of_plain f Hf), (paths_of_plain g Hg).
  split.
  - repeat (constructor; [rewrite ?list_elem_of_In; simpl; intros H;
                          destruct_or?; try done;
                          cbv [String.append] in *; simplify_eq|]).
    constructor.
  - intros Hfg p H1 H2. simpl in *. destruct_or?; try done; subst;
      cbv [String.append] in *; simplify_eq.
Qed.

End PathsApart.

(** ** Further properties: the whole run *)

Section WholeRun.
Context {W : Type} (P : Platform W).
Implicit Types (c : config) (acc : report) (w : W).

Lemma validate_safe c w : Forall startup_safe (events (validate P c w)).
Proof.
  unfold_program. run_cases.
  all: repeat constructor; simpl; tauto.
Qed.

Lemma checkTmpDir_safe w : Forall startup_safe (events (checkTmpDir P w)).
Proof.
  unfold_program. run_cases.
  all: repeat constructor; simpl; intros; destruct_or?; done.
Qed.

(** The calls of an iteration are calls for its file, and there are none
    for a file that is no PNG. *)
Lemma visit_calls c fileName acc w :
  Forall (call_for c fileName) (events (visit P c fileName acc w))
  ∧ (events (visit P c fileName acc w) ≠ [] → is_png fileName = true).
Proof.
  unfold is_png, call_for, paths_of. unfold_program.
  destruct (GoStrings.HasSuffix fileName ".png") eqn:Hpng; simpl in *;
    run_cases.
  all: split; [|done].
  all: repeat (constructor;
               [split_and!;
                [ simpl; tauto
                | simpl; intros p Hp; destruct_or?; subst; tauto
                | intros; simplify_eq; eauto ]|]).
  all: constructor.
Qed.

Lemma scan_calls c files : ∀ acc w,
  Forall (fun e => ∃ f, In f files ∧ is_png f = true ∧ call_for c f e)
    (events (scan P c files acc w)).
Proof.
  induction files as [|f rest IH]; intros acc w; [constructor|].
  rewrite scan_cons.
  destruct (visit_calls c f acc w) as [Hcalls Hpng].
  assert (Forall (fun e => ∃ f0, In f0 (f :: rest) ∧ is_png f0 = true
                                 ∧ call_for c f0 e)
            (events (visit P c f acc w))) as Hhere.
  { destruct (events (visit P c f acc w)) as [|e evs] eqn:Hevs;
      [constructor|].
    specialize (Hpng ltac:(done)).
    eapply Forall_impl; [exact Hcalls|].
    intros e' He'. exists f. split_and!; [by left|done|done]. }
  destruct (visit P c f acc w) as [evs out [acc1 w1|m w1|m w1]];
    simpl in *; try done.
  rewrite events_prepend. apply Forall_app. split; [done|].
  eapply Forall_impl; [apply IH|].
  intros e (f0 & Hin & Hf0 & He). exists f0. split_and!; [by right|done|done].
Qed.

(** The three ways a run of [main] goes: it stops in the start-up, the
    source directory cannot be listed, or the listing is scanned. *)
Lemma main_shape args w :
  ∃ startup,
    Forall startup_safe startup
    ∧ ((events (main P args w) = startup
        ∧ stdout (main P args w) = []
        ∧ ∀ w', outcome (main P args w) ≠ Ok tt w')
       ∨ (∃ e w',
            main P args w
            = mkRun (startup ++ [EvReadDir (srcDir (read_args args))
                                   (Failure e)]) []
                (Fatal ("read " +:+ srcDir (read_args args) +:+ " error: "
                        +:+ e) w'))
       ∨ (∃ files w3,
            main P args w
            = prepend
                (startup ++ [EvReadDir (srcDir (read_args args))
                               (Success files)]) []
                (after_scan P
                   (scan P (read_args args) files (mkReport [] []) w3)))).
Proof.
  rewrite main_phases. cbv zeta. set (c := read_args args). clearbody c.
  pose proof (validate_safe c w) as He1.
  destruct (validate_quiet P c w) as [Ho1 _].
  destruct (validate P c w) as [e1 o1 [[] w1|m w1|m w1]]; simpl in *;
    subst o1; try (exists e1; split; [done|]; left; done).
  pose proof (checkTmpDir_safe w1) as He2.
  destruct (checkTmpDir_quiet P w1) as [Ho2 _].
  destruct (checkTmpDir P w1) as [e2 o2 [[] w2|m w2|m w2]]; simpl in *;
    subst o2;
    try (exists (e1 ++ e2); split; [by apply Forall_app|]; left; done).
  exists (e1 ++ e2). split; [by apply Forall_app|]. right.
  destruct (ioutil_ReadDir P (srcDir c) w2) as [[files|err] w3]; simpl.
  - right. exists files, w3. unfold after_scan.
    destruct (scan P c files (mkReport [] []) w3)
      as [e4 o4 [acc w4|m w4|m w4]]; simpl;
      rewrite ?print_report_text; simpl;
      rewrite <- ?app_assoc, ?app_nil_r; reflexivity.
  - left. exists err, w3. by rewrite <- app_assoc.
Qed.

Lemma events_after_scan (r : run W report) :
  events (after_scan P r) = events r.
Proof. unfold after_scan. by destruct (outcome r). Qed.

(** Every call of [main] belongs to the start-up, is the listing of the
    source directory, or is a call for a PNG of that listing. *)
Lemma main_call_cases args w e :
  In e (events (main P args w)) →
  startup_safe e
  ∨ (∃ r, e = EvReadDir (srcDir (read_args args)) r)
  ∨ (∃ files f,
       In (EvReadDir (srcDir (read_args args)) (Success files))
         (events (main P args w))
       ∧ In f files ∧ is_png f = true ∧ call_for (read_args args) f e).
Proof.
  destruct (main_shape args w)
    as (startup & Hst & [(Hev & _ & _)|[(err & w' & ->)|(files & w3 & ->)]]).
  - rewrite Hev. intros Hin. left.
    rewrite Forall_forall in Hst. apply Hst. by apply list_elem_of_In.
  - simpl. intros [Hin|[<-|[]]]%in_app_or; [left|right; left; eauto].
    rewrite Forall_forall in Hst. apply Hst. by apply list_elem_of_In.
  - rewrite events_prepend, events_after_scan.
    intros [[Hin|[<-|[]]]%in_app_or|Hin]%in_app_or.
    + left. rewrite Forall_forall in Hst. apply Hst.
      by apply list_elem_of_In.
    + right. left. eauto.
    + right. right.
      pose proof (scan_calls (read_args args) files (mkReport [] []) w3)
        as Hcalls.
      rewrite Forall_forall in Hcalls.
      destruct (Hcalls e) as (f & Hf & Hpng & He);
        [by apply list_elem_of_In|].
      exists files, f. split_and!; try done.
      apply in_or_app. left. apply in_or_app. right. by left.
Qed.

Lemma listings_app (l1 l2 : list event) :
  listings (l1 ++ l2) = listings l1 ++ listings l2.
Proof. apply omap_app. Qed.

Lemma listings_none (l : list event) :
  Forall (fun e => ¬ is_scan e) l → listings l = [].
Proof.
  induction 1 as [|e l He _ IH]; [done|].
  destruct e; simpl in *; done.
Qed.

(** X11. [main] lists at most one directory, at most once, and the path
    it lists is the source directory: the scan works on that one listing,
    whatever the comparator or the program itself does to the directory
    meanwhile. *)
Theorem source_listed_once args w :
  listings (events (main P args w)) = []
  ∨ listings (events (main P args w)) = [srcDir (read_args args)].
Proof.
  assert (∀ l, Forall startup_safe l → listings l = []) as Hstart.
  { intros l Hl. apply listings_none. eapply Forall_impl; [exact Hl|].
    intros [] [He _]; simpl in *; tauto. }
  destruct (main_shape args w)
    as (startup & Hst & [(Hev & _ & _)|[(err & w' & ->)|(files & w3 & ->)]]).
  - left. rewrite Hev. by apply Hstart.
  - right. simpl. rewrite listings_app, (Hstart _ Hst). done.
  - right. rewrite events_prepend, events_after_scan, !listings_app.
    rewrite (Hstart _ Hst). simpl.
    rewrite listings_none; [done|].
    eapply Forall_impl; [apply scan_calls|].
    by intros e (f & _ & _ & He & _).
Qed.

(** X12. When the source directory cannot be listed, the run ends there
    in [log.Fatalf] with exit status 1: the failed listing is its last
    call, nothing has been printed, and apart from the creation of the
    workspace directory nothing has been touched. *)
Theorem unlistable_source_is_fatal args w dirname e :
  In (EvReadDir dirname (Failure e)) (events (main P args w)) →
  dirname = srcDir (read_args args)
  ∧ exit_status (main P args w) = 1
  ∧ (∃ w', outcome (main P args w)
           = Fatal ("read " +:+ dirname +:+ " error: " +:+ e) w')
  ∧ stdout (main P args w) = []
  ∧ last (events (main P args w)) = Some (EvReadDir dirname (Failure e))
  ∧ Forall (fun e' => ¬ is_run e'
                       ∧ ∀ p, In p (writes_to e') → p = tmpDir)
      (events (main P args w)).
Proof.
  assert (∀ l x, Forall startup_safe l → In x l → startup_call x)
    as Hstart.
  { intros l x Hl Hx. rewrite Forall_forall in Hl.
    by apply Hl, list_elem_of_In. }
  destruct (main_shape args w)
    as (startup & Hst & [(Hev & _ & _)|[(err & w' & ->)|(files & w3 & ->)]]).
  - rewrite Hev. intros Hin. by destruct (Hstart _ _ Hst Hin).
  - simpl. intros [Hin|[Heq|[]]]%in_app_or.
    { by destruct (Hstart _ _ Hst Hin). }
    simplify_eq. unfold exit_status. simpl.
    split_and!; eauto.
    + by rewrite last_app.
    + apply Forall_app. split.
      * eapply Forall_impl; [exact Hst|].
        intros [] [He Hp]; simpl in *; try done; split; try tauto.
      * repeat constructor; simpl; tauto.
  - rewrite events_prepend, events_after_scan.
    intros [[Hin|[Heq|[]]]%in_app_or|Hin]%in_app_or.
    + by destruct (Hstart _ _ Hst Hin).
    + done.
    + pose proof (scan_calls (read_args args) files (mkReport [] []) w3)
        as Hcalls.
      rewrite Forall_forall in Hcalls.
      destruct (Hcalls _ (proj2 (list_elem_of_In _ _) Hin))
        as (f & _ & _ & He & _).
      by destruct He.
Qed.

(** X13. The only paths a run creates, overwrites, moves or deletes are
    the workspace directory and, for the PNG entries of the listing of
    the source directory, the two staged copies, the transient diff and
    the stable diff of the entry. *)
Theorem main_touches_only_workspace args w e p :
  In e (events (main P args w)) →
  In p (writes_to e) →
  p = tmpDir
  ∨ ∃ files f,
      In (EvReadDir (srcDir (read_args args)) (Success files))
        (events (main P args w))
      ∧ In f files ∧ is_png f = true ∧ In p (paths_of f).
Proof.
  intros He Hp.
  destruct (main_call_cases args w e He)
    as [[_ Hs]|[[r ->]|(files & f & Hls & Hf & Hpng & _ & Hw & _)]].
  - left. by apply Hs.
  - destruct Hp.
  - right. exists files, f. split_and!; try done. by apply Hw.
Qed.

(** X14. The comparator is only ever run for a PNG entry of the listing
    of the source directory, on the staged copies and the transient diff
    path of that entry, with the configured threshold as last
    argument. *)
Theorem comparator_runs_on_listing args w argv r :
  In (EvRun argv r) (events (main P args w)) →
  ∃ files f absTmpDir,
    In (EvReadDir (srcDir (read_args args)) (Success files))
      (events (main P args w))
    ∧ In f files ∧ is_png f = true
    ∧ argv = docker_argv (read_args args) absTmpDir f
    ∧ last argv = Some (threshold (read_args args)).
Proof.
  intros He.
  destruct (main_call_cases args w _ He)
    as [[Hs _]|[[r' ?]|(files & f & Hls & Hf & Hpng & _ & _ & Hrun)]];
    try done.
  destruct (Hrun _ _ eq_refl) as [a ->].
  exists files, f, a. split_and!; done.
Qed.

End WholeRun.

(** ** Further properties: the values of a pixel-mismatch record *)

Section ParsedValues.
Import GoStrings.

Lemma Split_fields_clean (s : string) (c : ascii) (field : string) :
  In field (Split s c) → contains c field = false.
Proof.
  revert field. induction s as [|x s IH]; intros field; simpl.
  - by intros [<-|[]].
  - destruct (Ascii.eqb x c) eqn:Hx; simpl.
    + intros [<-|Hin]; [done|]. by apply IH.
    + pose proof (Split_not_nil s c).
      destruct (Split s c) as [|first rest]; [done|].
      intros [<-|Hin]; simpl.
      * rewrite Hx. simpl. apply IH. by left.
      * apply IH. by right.
Qed.

Lemma Split_fields_part (s : string) (c x : ascii) (field : string) :
  In field (Split s c) → contains x field = true → contains x s = true.
Proof.
  revert field. induction s as [|y s IH]; intros field; simpl.
  - by intros [<-|[]].
  - destruct (Ascii.eqb y c) eqn:Hy; simpl.
    + intros [<-|Hin]; [done|]. intros Hx.
      rewrite (IH _ Hin Hx). apply orb_true_r.
    + pose proof (Split_not_nil s c).
      destruct (Split s c) as [|first rest]; [done|].
      intros [<-|Hin]; simpl.
      * intros [Hx|Hx]%orb_true_iff; [by rewrite Hx|].
        rewrite (IH first); [apply orb_true_r|by left|done].
      * intros Hx. rewrite (IH field); [apply orb_true_r|by right|done].
Qed.

Lemma contains_substring (x : ascii) (s : string) : ∀ n m,
  contains x (String.substring n m s) = true → contains x s = true.
Proof.
  induction s as [|y s IH]; intros [|n] [|m]; simpl; try done.
  - intros [Hx|Hx]%orb_true_iff; [by rewrite Hx|].
    rewrite (IH _ _ Hx). apply orb_true_r.
  - intros Hx. rewrite (IH _ _ Hx). apply orb_true_r.
  - intros Hx. rewrite (IH _ _ Hx). apply orb_true_r.
Qed.

Lemma contains_rev_app (x : ascii) (s1 : string) : ∀ s2,
  contains x (String.rev_app s1 s2) = contains x s1 || contains x s2.
Proof.
  induction s1 as [|y s1 IH]; intros s2; simpl; [done|].
  rewrite IH. simpl. destruct (Ascii.eqb y x), (contains x s1); done.
Qed.

Lemma contains_rev (x : ascii) (s : string) :
  contains x (String.rev s) = contains x s.
Proof. unfold String.rev. rewrite contains_rev_app. apply orb_false_r. Qed.

Lemma contains_strip_leading (x : ascii) runes fuel : ∀ s,
  contains x (strip_leading runes fuel s) = true → contains x s = true.
Proof.
  induction fuel as [|fuel IH]; intros s; simpl; [done|].
  destruct (find _ runes) as [r|]; [|done].
  intros Hx. apply IH in Hx. by apply contains_substring in Hx.
Qed.

(** [strings.TrimSpace] only takes bytes away. *)
Lemma contains_TrimSpace (x : ascii) (s : string) :
  contains x (TrimSpace s) = true → contains x s = true.
Proof.
  unfold TrimSpace, TrimRightSpace, TrimLeftSpace. rewrite contains_rev.
  intros Hx. apply contains_strip_leading in Hx. rewrite contains_rev in Hx.
  by apply contains_strip_leading in Hx.
Qed.

(** X15. Whatever the comparator printed, the pixel count and the error
    rate of a record contain neither a line feed nor a colon, and the
    record carries the file name it was built for. *)
Theorem newDiffPixel_values_clean (fileName out : string) (dp : diffPixel) :
  newDiffPixel fileName out = Some dp →
  file dp = fileName
  ∧ contains LF (pixels dp) = false ∧ contains COLON (pixels dp) = false
  ∧ contains LF (error dp) = false ∧ contains COLON (error dp) = false.
Proof.
  assert (∀ line value x,
            In line (Split out LF) → In value (Split line COLON) →
            (x = LF ∨ x = COLON) →
            contains x (TrimSpace value) = false) as Hclean.
  { intros line value x Hline Hvalue Hx.
    destruct (contains x (TrimSpace value)) eqn:Hin; [|done].
    apply contains_TrimSpace in Hin. destruct Hx as [-> | ->].
    - apply (Split_fields_part _ _ _ _ Hvalue) in Hin.
      by rewrite (Split_fields_clean _ _ _ Hline) in Hin.
    - by rewrite (Split_fields_clean _ _ _ Hvalue) in Hin. }
  unfold newDiffPixel. intros H.
  destruct (Split out LF !! 1%nat) as [line1|] eqn:H1; [simpl in H|done].
  destruct (Split out LF !! 2%nat) as [line2|] eqn:H2; [simpl in H|done].
  destruct (Split line1 COLON !! 1%nat) as [v1|] eqn:H3; [simpl in H|done].
  destruct (Split line2 COLON !! 1%nat) as [v2|] eqn:H4; [simpl in H|done].
  simplify_eq. simpl.
  apply list_elem_of_lookup_2, list_elem_of_In in H1, H2, H3, H4.
  split_and!; [done|..].
  - apply (Hclean line1); auto.
  - apply (Hclean line1); auto.
  - apply (Hclean line2); auto.
  - apply (Hclean line2); auto.
Qed.

End ParsedValues.

(** ** Further properties: listings without PNG, and duplicates *)

Section Listings.
Context {W : Type} (P : Platform W).
Implicit Types (c : config) (acc : report) (w : W).

Lemma scan_without_png c files : ∀ acc w,
  Forall (fun f => is_png f = false) files →
  scan P c files acc w = mkRun [] [] (Ok acc w).
Proof.
  induction files as [|f rest IH]; intros acc w Hall; [done|].
  apply Forall_cons in Hall as [Hf Hrest].
  rewrite scan_cons. unfold visit. unfold is_png in Hf. rewrite Hf. simpl.
  by rewrite (IH _ _ Hrest).
Qed.

(** X16. When the listing of the source directory is empty or holds no
    name ending in [.png], the run ends with exit status 0 having
    printed nothing: no target is inspected, no file is copied, the
    comparator is not run, and only the workspace directory may have been
    created. *)
Theorem no_png_no_work args w files :
  In (EvReadDir (srcDir (read_args args)) (Success files))
    (events (main P args w)) →
  Forall (fun f => is_png f = false) files →
  exit_status (main P args w) = 0
  ∧ stdout (main P args w) = []
  ∧ last (events (main P args w))
    = Some (EvReadDir (srcDir (read_args args)) (Success files))
  ∧ Forall (fun e => ¬ is_run e ∧ ∀ p, In p (writes_to e) → p = tmpDir)
      (events (main P args w)).
Proof.
  assert (∀ l x, Forall startup_safe l → In x l → startup_call x)
    as Hstart.
  { intros l x Hl Hx. rewrite Forall_forall in Hl.
    by apply Hl, list_elem_of_In. }
  assert (∀ l, Forall startup_safe l →
               Forall (fun e => ¬ is_run e
                                ∧ ∀ p, In p (writes_to e) → p = tmpDir) l)
    as Hsafe.
  { intros l Hl. eapply Forall_impl; [exact Hl|].
    intros [] [He Hp]; simpl in *; try done; split; tauto. }
  destruct (main_shape P args w)
    as (startup & Hst & [(Hev & _ & _)|[(err & w' & ->)|(files0 & w3 & ->)]]).
  - rewrite Hev. intros Hin. by destruct (Hstart _ _ Hst Hin).
  - simpl. intros [Hin|[Heq|[]]]%in_app_or; [|done].
    by destruct (Hstart _ _ Hst Hin).
  - rewrite events_prepend, events_after_scan.
    intros Hin Hall.
    assert (files0 = files) as ->.
    { apply in_app_or in Hin as [[Hin|[Heq|[]]]%in_app_or|Hin].
      - by destruct (Hstart _ _ Hst Hin).
      - by simplify_eq.
      - pose proof (scan_calls P (read_args args) files0 (mkReport [] []) w3)
          as Hcalls.
        rewrite Forall_forall in Hcalls.
        destruct (Hcalls _ (proj2 (list_elem_of_In _ _) Hin))
          as (f & _ & _ & He & _).
        by destruct He. }
    rewrite (scan_without_png _ _ _ _ Hall).
    unfold exit_status, after_scan. simpl. rewrite app_nil_r.
    split_and!; [done|done|by rewrite last_app|].
    apply Forall_app. split; [by apply Hsafe|].
    repeat constructor; simpl; tauto.
Qed.

Lemma scan_apart c files : ∀ acc w acc' w',
  NoDup files →
  outcome (scan P c files acc w) = Ok acc' w' →
  ∃ d p,
    diffDimensions acc' = diffDimensions acc ++ d
    ∧ diffPixels acc' = diffPixels acc ++ p
    ∧ sublist d files ∧ sublist (map file p) files
    ∧ ∀ f, In f d → ¬ In f (map file p).
Proof.
  induction files as [|f rest IH]; intros acc w acc' w' Hnd H.
  - simpl in H. simplify_eq. exists [], []. rewrite !app_nil_r.
    split_and!; done.
  - apply NoDup_cons in Hnd as [Hf Hnd].
    rewrite scan_cons in H.
    pose proof (visit_Ok P c f acc w) as HV.
    destruct (visit P c f acc w) as [evs out [acc1 w1|m w1|m w1]];
      simpl in H; try done.
    rewrite outcome_prepend in H.
    destruct (IH _ _ _ _ Hnd H) as (d & p & Hd & Hp & Hds & Hps & Hdp).
    assert (∀ l, sublist l rest → ¬ In f l) as Hfresh.
    { intros l Hl Hin. apply Hf. apply list_elem_of_In in Hin.
      by eapply elem_of_sublist. }
    destruct (HV _ _ eq_refl)
      as [(_ & -> & _)|[(_ & _ & -> & _)
                       |(_ & _ & _ & st & d1 & d2 & a & r & Hr)]]; clear HV.
    + exists d, p. split_and!; try done; by apply sublist_cons.
    + exists d, p. split_and!; try done; by apply sublist_cons.
    + destruct Hr as [(_ & -> & _)|[(_ & _ & -> & _)
                                   |(_ & _ & dp & Hparse & -> & _)]].
      * exists d, p. split_and!; try done; by apply sublist_cons.
      * exists (f :: d), p. simpl in *. rewrite <- app_assoc in Hd.
        split_and!; try done.
        -- by apply sublist_skip.
        -- by apply sublist_cons.
        -- intros x [<-|Hx]; [by apply Hfresh|by apply Hdp].
      * exists d, (dp :: p). simpl in *. rewrite <- app_assoc in Hp.
        rewrite (newDiffPixel_file _ _ _ Hparse).
        split_and!; try done.
        -- by apply sublist_cons.
        -- by apply sublist_skip.
        -- intros x Hx [<-|Hx']; [by apply (Hfresh d)|by apply (Hdp x)].
Qed.

(** X17. When the listing has no duplicate name, a scan that reaches its
    end reports no file twice: neither list has a repetition, and no
    file is in both the dimension mismatches and the pixel mismatches. *)
Theorem report_sections_apart c files w acc' w' :
  NoDup files →
  outcome (scan P c files (mkReport [] []) w) = Ok acc' w' →
  NoDup (diffDimensions acc')
  ∧ NoDup (map file (diffPixels acc'))
  ∧ ∀ f, In f (diffDimensions acc')
         → ¬ In f (map file (diffPixels acc')).
Proof.
  intros Hnd H.
  destruct (scan_apart c files _ _ _ _ Hnd H)
    as (d & p & -> & -> & Hd & Hp & Hdp).
  simpl. split_and!; [|by eapply sublist_NoDup|done].
  by eapply sublist_NoDup.
Qed.

End Listings.

(** ** The further properties on the reference platform *)

Section MoreInstances.
Import RefOS Examples Runs Faulty.

Lemma failed_validation_stops_main_witness :
  (∀ w', outcome (validate (platform pixelmatch) (read_args []) bare_shots)
         ≠ Ok tt w')
  ∧ exit_status (main (platform pixelmatch) [] bare_shots) = 1
  ∧ stdout (main (platform pixelmatch) [] bare_shots) = []
  ∧ events (main (platform pixelmatch) [] bare_shots)
    = events (validate (platform pixelmatch) (read_args []) bare_shots)
  ∧ Forall (fun e => writes_to e = [] ∧ ¬ is_scan e ∧ ¬ is_run e)
      (events (main (platform pixelmatch) [] bare_shots)).
Proof.
  assert (∀ w', outcome (validate (platform pixelmatch) (read_args [])
                           bare_shots) ≠ Ok tt w') as Hfail
    by (intros w'; vm_compute; discriminate).
  split; [exact Hfail|].
  exact (failed_validation_stops_main (platform pixelmatch) [] bare_shots
           Hfail).
Defined.

Lemma checkTmpDir_outcomes_witness :
  (os_Stat (denied "tmp" pixelmatch) tmpDir shots).1
  = StatError false "stat tmp: permission denied"
  ∧ ∃ w', checkTmpDir (denied "tmp" pixelmatch) shots
          = mkRun [EvStat tmpDir
                     (StatError false "stat tmp: permission denied")] []
              (Panic "invalid memory address or nil pointer dereference" w').
Proof.
  assert ((os_Stat (denied "tmp" pixelmatch) tmpDir shots).1
          = StatError false "stat tmp: permission denied") as Hstat
    by reflexivity.
  split; [exact Hstat|].
  exact (proj2 (proj2 (checkTmpDir_outcomes (denied "tmp" pixelmatch) shots))
           _ Hstat).
Defined.

Lemma staged_copies_are_exact_witness :
  In (EvWriteFile "tmp/target-a.png" "AAAB" 420 None)
    (events (visit_with pixelmatch "a.png"))
  ∧ 420 = 420
  ∧ (("tmp/target-a.png" = tmpSrcFile "a.png"
      ∧ In (EvReadFile (srcFile defaults "a.png") (Success "AAAB"))
          (events (visit_with pixelmatch "a.png")))
     ∨ ("tmp/target-a.png" = tmpTargetFile "a.png"
        ∧ In (EvReadFile (targetFile defaults "a.png") (Success "AAAB"))
            (events (visit_with pixelmatch "a.png")))).
Proof.
  assert (In (EvWriteFile "tmp/target-a.png" "AAAB" 420 None)
            (events (visit_with pixelmatch "a.png"))) as Hin
    by (vm_compute; in_list).
  split; [exact Hin|].
  exact (staged_copies_are_exact (platform pixelmatch) defaults "a.png"
           empty_report shots _ _ _ _ Hin).
Defined.

Lemma staging_failure_is_fatal_witness :
  In (EvReadFile "src/e.png" (Failure "read src/e.png: is a directory"))
    (events (visit (platform pixelmatch) defaults "e.png" empty_report
               odd_shots))
  ∧ staging_failure
      (EvReadFile "src/e.png" (Failure "read src/e.png: is a directory"))
  ∧ ∃ msg w',
      outcome (visit (platform pixelmatch) defaults "e.png" empty_report
                 odd_shots) = Fatal msg w'.
Proof.
  assert (In (EvReadFile "src/e.png"
                (Failure "read src/e.png: is a directory"))
            (events (visit (platform pixelmatch) defaults "e.png"
                       empty_report odd_shots))) as Hin
    by (vm_compute; in_list).
  split_and!; [exact Hin|exact I|].
  exact (proj1 (proj2 (staging_failure_is_fatal (platform pixelmatch)
                         defaults "e.png" empty_report odd_shots _ Hin I))).
Defined.

Lemma dimension_mismatch_recorded_witness :
  In (EvRun (argv_of "c.png") answer_sizes)
    (events (visit_with pixelmatch "c.png"))
  ∧ cmd_err answer_sizes ≠ None
  ∧ cmd_ExitCode answer_sizes = exitCodeDifferentDimension
  ∧ ∃ st d1 d2 absTmpDir more,
      events (visit_with pixelmatch "c.png")
      = staging defaults "c.png" st d1 d2 absTmpDir answer_sizes ++ more
      ∧ cleaned "c.png" (with_dimension empty_report "c.png") more
          (outcome (visit_with pixelmatch "c.png")).
Proof.
  assert (In (EvRun (argv_of "c.png") answer_sizes)
            (events (visit_with pixelmatch "c.png"))) as Hin
    by (vm_compute; in_list).
  assert (cmd_err answer_sizes ≠ None) as Herr by discriminate.
  split_and!; [exact Hin|exact Herr|reflexivity|].
  exact (dimension_mismatch_recorded (platform pixelmatch) defaults "c.png"
           empty_report shots _ _ Hin Herr eq_refl).
Defined.

Lemma unparsable_mismatch_panics_witness :
  In (EvRun (argv_of "a.png") answer_garbled)
    (events (visit_with garbled "a.png"))
  ∧ cmd_err answer_garbled ≠ None
  ∧ cmd_ExitCode answer_garbled = exitCodeDifferentPixels
  ∧ newDiffPixel "a.png" (cmd_out answer_garbled) = None
  ∧ exit_status (visit_with garbled "a.png") = 2.
Proof.
  assert (In (EvRun (argv_of "a.png") answer_garbled)
            (events (visit_with garbled "a.png"))) as Hin
    by (vm_compute; in_list).
  assert (cmd_err answer_garbled ≠ None) as Herr by discriminate.
  split_and!; [exact Hin|exact Herr|reflexivity|reflexivity|].
  exact (proj1 (unparsable_mismatch_panics (platform garbled) defaults
                  "a.png" empty_report shots _ _ Hin Herr eq_refl eq_refl)).
Defined.

Lemma stat_error_is_not_absence_witness :
  is_png "a.png" = true
  ∧ (os_Stat (denied "target/a.png" pixelmatch)
       (targetFile defaults "a.png") shots).1
    = StatError false "stat target/a.png: permission denied"
  ∧ ∃ r more,
      events (visit (denied "target/a.png" pixelmatch) defaults "a.png"
                empty_report shots)
      = EvStat (targetFile defaults "a.png")
          (StatError false "stat target/a.png: permission denied")
          :: EvReadFile (srcFile defaults "a.png") r :: more.
Proof.
  assert ((os_Stat (denied "target/a.png" pixelmatch)
             (targetFile defaults "a.png") shots).1
          = StatError false "stat target/a.png: permission denied") as Hstat
    by (vm_compute; reflexivity).
  split_and!; [reflexivity|exact Hstat|].
  exact (stat_error_is_not_absence (denied "target/a.png" pixelmatch)
           defaults "a.png" empty_report shots _ eq_refl Hstat).
Defined.

Lemma workspace_paths_apart_witness :
  plain "a.png" ∧ plain "c.png"
  ∧ NoDup (paths_of "a.png")
  ∧ ("a.png" ≠ "c.png" →
     ∀ p, In p (paths_of "a.png") → ¬ In p (paths_of "c.png")).
Proof.
  split_and!; [reflexivity|reflexivity|..];
    apply (workspace_paths_apart "a.png" "c.png"); reflexivity.
Defined.

Lemma unlistable_source_is_fatal_witness :
  In (EvReadDir "src" (Failure "open src: permission denied"))
    (events (main (unlistable pixelmatch) [] shots))
  ∧ "src" = srcDir (read_args [])
  ∧ exit_status (main (unlistable pixelmatch) [] shots) = 1.
Proof.
  assert (In (EvReadDir "src" (Failure "open src: permission denied"))
            (events (main (unlistable pixelmatch) [] shots))) as Hin
    by (vm_compute; in_list).
  split; [exact Hin|].
  pose proof (unlistable_source_is_fatal (unlistable pixelmatch) [] shots
                _ _ Hin) as H.
  exact (conj (proj1 H) (proj1 (proj2 H))).
Defined.

Lemma main_touches_only_workspace_witness :
  In (EvRename "tmp/diff-a.png" "diff-a.png" None) (events full_run)
  ∧ In "diff-a.png"
      (writes_to (EvRename "tmp/diff-a.png" "diff-a.png" None))
  ∧ ("diff-a.png" = tmpDir
     ∨ ∃ files f,
         In (EvReadDir (srcDir (read_args [])) (Success files))
           (events full_run)
         ∧ In f files ∧ is_png f = true ∧ In "diff-a.png" (paths_of f)).
Proof.
  assert (In (EvRename "tmp/diff-a.png" "diff-a.png" None)
            (events full_run)) as Hin by (vm_compute; in_list).
  assert (In "diff-a.png"
            (writes_to (EvRename "tmp/diff-a.png" "diff-a.png" None)))
    as Hp by (simpl; tauto).
  split_and!; [exact Hin|exact Hp|].
  exact (main_touches_only_workspace (platform pixelmatch) [] shots _ _
           Hin Hp).
Defined.

Lemma comparator_runs_on_listing_witness :
  In (EvRun (argv_of "a.png") answer_differs) (events full_run)
  ∧ ∃ files f absTmpDir,
      In (EvReadDir (srcDir (read_args [])) (Success files))
        (events full_run)
      ∧ In f files ∧ is_png f = true
      ∧ argv_of "a.png" = docker_argv (read_args []) absTmpDir f
      ∧ last (argv_of "a.png") = Some (threshold (read_args [])).
Proof.
  assert (In (EvRun (argv_of "a.png") answer_differs) (events full_run))
    as Hin by (vm_compute; in_list).
  split; [exact Hin|].
  exact (comparator_runs_on_listing (platform pixelmatch) [] shots _ _ Hin).
Defined.

Lemma newDiffPixel_values_clean_witness :
  newDiffPixel "y.png" sample_out
  = Some {| file := "y.png"; pixels := "1234"; error := "0.042" |}
  ∧ GoStrings.contains GoStrings.COLON "1234" = false.
Proof.
  assert (newDiffPixel "y.png" sample_out
          = Some {| file := "y.png"; pixels := "1234"; error := "0.042" |})
    as Hparse by (vm_compute; reflexivity).
  split; [exact Hparse|].
  exact (proj1 (proj2 (proj2 (newDiffPixel_values_clean _ _ _ Hparse)))).
Defined.

Lemma no_png_no_work_witness :
  In (EvReadDir (srcDir (read_args ["0.1"; "tmp"])) (Success []))
    (events (main (platform pixelmatch) ["0.1"; "tmp"] shots))
  ∧ Forall (fun f => is_png f = false) []
  ∧ exit_status (main (platform pixelmatch) ["0.1"; "tmp"] shots) = 0
  ∧ stdout (main (platform pixelmatch) ["0.1"; "tmp"] shots) = [].
Proof.
  assert (In (EvReadDir (srcDir (read_args ["0.1"; "tmp"])) (Success []))
            (events (main (platform pixelmatch) ["0.1"; "tmp"] shots)))
    as Hin by (vm_compute; in_list).
  assert (Forall (fun f => is_png f = false) []) as Hall by constructor.
  split_and!; [exact Hin|exact Hall|..];
    apply (no_png_no_work (platform pixelmatch) ["0.1"; "tmp"] shots []
             Hin Hall).
Defined.

Lemma report_sections_apart_witness :
  NoDup listing
  ∧ outcome full_scan
    = Ok {| diffDimensions := ["c.png"]; diffPixels := [a_record] |}
        (final_world full_scan)
  ∧ ∀ f, In f ["c.png"] → ¬ In f (map file [a_record]).
Proof.
  assert (NoDup listing) as Hnd
    by (apply (bool_decide_unpack _); vm_compute; exact I).
  assert (outcome full_scan
          = Ok {| diffDimensions := ["c.png"]; diffPixels := [a_record] |}
              (final_world full_scan)) as Hout
    by (vm_compute; reflexivity).
  split_and!; [exact Hnd|exact Hout|].
  exact (proj2 (proj2 (report_sections_apart (platform pixelmatch) defaults
                         listing shots _ _ Hnd Hout))).
Defined.

End MoreInstances.
